(** * The maze's sprite motion (src/frontend/_lib/maze.js)

    A shallow embedding of class [Maze]: the wall list built by [drawMaze],
    the two predicates [isSpriteOutOfBounds] and [isSpriteAtFinish], the
    requests [moveSprite], [moveSpriteX], [moveSpriteY], [resetSprite] and the
    per-tick callback [animateMotion] that [moveSprite] registers on the
    ticker.

    Numbers.  [this.app.view.width] is a canvas width (an integer) and
    [this.grid.length] a length, so [cellSize] is their quotient: it is kept
    as an exact rational.  Every value the source stores in [sprite.x] and
    [sprite.y] is a [Math.round] or a previous value plus or minus one, so the
    sprite position is an integer.

    JavaScript computes the quotient, and every product and quotient made
    from it, in binary64.  The definitions below are the exact reading; the
    module [Double] further down gives the binary64 reading of the bounds
    test and of the target pixel, on primitive floats, so that both can be
    evaluated side by side.  The two readings agree when [cellSize] is a
    whole number of pixels (as in the worked examples, where the width is
    500 and the grid has 5 rows), and for the bounds test also at every
    pixel that is on no cell edge; they can differ at a pixel exactly on a
    cell edge, and for a target whose exact position is a half pixel, when
    width / n is not representable (see [pixel_on_rounded_edge] and
    [target_of_rounded_half]). *)

From Stdlib Require Import ZArith QArith Qround Lia Bool String Floats Uint63.
From stdpp Require Import base list.

Open Scope Z_scope.

(** ** JavaScript's [Math.floor] and [Math.round] on exact rationals *)

Definition Math_floor (q : Q) : Z := Qfloor q.

(** [Math.round] rounds to the nearest integer, ties towards +infinity. *)
Definition Math_round (q : Q) : Z := Qfloor (q + (1 # 2))%Q.

(** ** The rectangles PIXI hands back from [getBounds] *)

Record Rectangle := mkRectangle {
  rect_x : Q;
  rect_y : Q;
  rect_width : Q;
  rect_height : Q
}.

Definition Qltb (a b : Q) : bool := negb (Qle_bool b a).

(** PIXI's [Rectangle.contains]: an empty rectangle contains nothing;
    otherwise the left and top edges are inside, the right and bottom edges
    are not. *)
Definition contains (r : Rectangle) (px py : Q) : bool :=
  if Qle_bool (rect_width r) 0 || Qle_bool (rect_height r) 0 then false
  else if Qle_bool (rect_x r) px && Qltb px (rect_x r + rect_width r)%Q
       then Qle_bool (rect_y r) py && Qltb py (rect_y r + rect_height r)%Q
       else false.

(** ** The instance *)

Module Point.
Record t := mk { x : Z; y : Z }.
End Point.

(** The three ways a promise can be. *)
Inductive PromiseState :=
| Pending
| Resolved
| Rejected (reason : string).

(** One [animateMotion] closure: the pixel target it captured and the
    promise whose [resolve] and [reject] it holds. *)
Record Listener := mkListener {
  handle : nat;
  targetX : Z;
  targetY : Z
}.

Record Maze := mkMaze {
  view_width : Z;                 (* this.app.view.width *)
  grid : list (list Z);           (* this.grid: 0 is a path, anything else a wall *)
  mazeCode : string;              (* this.mazeCode *)
  walls : list Rectangle;         (* bounds of this.walls, in push order *)
  spriteCoordinates : Point.t;    (* this.spriteCoordinates *)
  sprite : Point.t;               (* this.sprite.x, this.sprite.y *)
  onSuccess : bool;               (* whether an onSuccess handler was given *)
  successCalls : nat;             (* how many times onSuccess has run *)
  ticker : list Listener;         (* this.app.ticker's callbacks, in order *)
  promises : list PromiseState    (* every promise moveSprite has returned *)
}.

Definition gridLength (g : list (list Z)) : Z := Z.of_nat (length g).

Definition cellSizeOf (width : Z) (g : list (list Z)) : Q :=
  (inject_Z width / inject_Z (gridLength g))%Q.

Definition cellSize (s : Maze) : Q := cellSizeOf (view_width s) (grid s).

(** ** [drawMaze]: one square per non-zero cell, row by row *)

Definition wallBounds (cs : Q) (i j : Z) : Rectangle :=
  mkRectangle (inject_Z j * cs)%Q (inject_Z i * cs)%Q cs cs.

Fixpoint drawRow (cs : Q) (i j : Z) (row : list Z) : list Rectangle :=
  match row with
  | [] => []
  | cell :: rest =>
      (if cell =? 0 then [] else [wallBounds cs i j]) ++ drawRow cs i (j + 1) rest
  end.

Fixpoint drawRows (cs : Q) (i : Z) (rows : list (list Z)) : list Rectangle :=
  match rows with
  | [] => []
  | row :: rest => drawRow cs i 0 row ++ drawRows cs (i + 1) rest
  end.

Definition drawMaze (width : Z) (g : list (list Z)) : list Rectangle :=
  drawRows (cellSizeOf width g) 0 g.

(** ** [generateSprite] and the constructor *)

Definition generateSprite (cs : Q) (c : Point.t) : Point.t :=
  Point.mk (Math_round (inject_Z (Point.x c) * cs + (5 # 2))%Q)
           (Math_round (inject_Z (Point.y c) * cs + (5 # 2))%Q).

(** The grid and the maze code come from [generateRandomMaze] and
    [generateMazeCode], which are other modules: the constructor takes their
    results. *)
Definition constructor (width : Z) (g : list (list Z)) (code : string)
    (handler : bool) : Maze :=
  let entrance := Point.mk 0 1 in
  mkMaze width g code (drawMaze width g) entrance
         (generateSprite (cellSizeOf width g) entrance)
         handler 0%nat [] [].

(** ** The two predicates *)

Definition spriteCellX (s : Maze) : Z :=
  Math_floor (inject_Z (Point.x (sprite s)) / cellSize s)%Q.

Definition spriteCellY (s : Maze) : Z :=
  Math_floor (inject_Z (Point.y (sprite s)) / cellSize s)%Q.

(** The bounds test in the exact reading; [Double.isSpriteOutOfBounds] is
    the binary64 one. *)
Definition isSpriteOutOfBounds (s : Maze) : bool :=
  let x := spriteCellX s in
  let y := spriteCellY s in
  if existsb (fun wall => contains wall (inject_Z (Point.x (sprite s)))
                                        (inject_Z (Point.y (sprite s))))
             (walls s)
  then true
  else (x <? 0) || (y <? 0) || (x >=? gridLength (grid s))
       || (y >=? gridLength (grid s)).

Definition isSpriteAtFinish (s : Maze) : bool :=
  let x := spriteCellX s in
  let y := spriteCellY s in
  (x >=? gridLength (grid s) - 2) && (y >=? gridLength (grid s) - 2).

(** ** Field updates *)

Definition set_sprite (p : Point.t) (s : Maze) : Maze :=
  mkMaze (view_width s) (grid s) (mazeCode s) (walls s) (spriteCoordinates s)
         p (onSuccess s) (successCalls s) (ticker s) (promises s).

Definition set_spriteCoordinates (c : Point.t) (s : Maze) : Maze :=
  mkMaze (view_width s) (grid s) (mazeCode s) (walls s) c
         (sprite s) (onSuccess s) (successCalls s) (ticker s) (promises s).

Definition set_ticker (t : list Listener) (s : Maze) : Maze :=
  mkMaze (view_width s) (grid s) (mazeCode s) (walls s) (spriteCoordinates s)
         (sprite s) (onSuccess s) (successCalls s) t (promises s).

Definition set_promises (ps : list PromiseState) (s : Maze) : Maze :=
  mkMaze (view_width s) (grid s) (mazeCode s) (walls s) (spriteCoordinates s)
         (sprite s) (onSuccess s) (successCalls s) (ticker s) ps.

Definition set_successCalls (k : nat) (s : Maze) : Maze :=
  mkMaze (view_width s) (grid s) (mazeCode s) (walls s) (spriteCoordinates s)
         (sprite s) (onSuccess s) k (ticker s) (promises s).

(** ** Promises and the ticker *)

(** [resolve] and [reject] settle a pending promise and do nothing to a
    settled one. *)
Definition settle (h : nat) (v : PromiseState) (s : Maze) : Maze :=
  match promises s !! h with
  | Some Pending => set_promises (<[h := v]> (promises s)) s
  | _ => s
  end.

(** [this.app.ticker.remove(animateMotion)]: each closure is its own
    function, told apart here by the promise it holds. *)
Definition ticker_remove (l : Listener) (s : Maze) : Maze :=
  set_ticker (filter (fun l' => handle l' <> handle l) (ticker s)) s.

(** [this.onSuccess?.()] *)
Definition callOnSuccess (s : Maze) : Maze :=
  if onSuccess s then set_successCalls (S (successCalls s)) s else s.

Definition toward (current target : Z) : Z :=
  if current <? target then 1 else -1.

(** ** [animateMotion], the callback of one move *)

Definition animateMotion (l : Listener) (s : Maze) : Maze :=
  if isSpriteOutOfBounds s then
    ticker_remove l (settle (handle l) (Rejected "Out of bounds") s)
  else if negb (Point.x (sprite s) =? targetX l) then
    set_sprite (Point.mk (Point.x (sprite s)
                          + toward (Point.x (sprite s)) (targetX l))
                         (Point.y (sprite s))) s
  else if negb (Point.y (sprite s) =? targetY l) then
    set_sprite (Point.mk (Point.x (sprite s))
                         (Point.y (sprite s)
                          + toward (Point.y (sprite s)) (targetY l))) s
  else
    let s1 := ticker_remove l s in
    let s2 := if isSpriteAtFinish s1 then callOnSuccess s1 else s1 in
    settle (handle l) Resolved s2.

(** One tick of the ticker: every callback registered when the tick starts
    runs once, in registration order (a callback only ever removes
    itself). *)
Definition tick (s : Maze) : Maze :=
  fold_left (fun st l => animateMotion l st) (ticker s) s.

Fixpoint ticks (k : nat) (s : Maze) : Maze :=
  match k with
  | O => s
  | S k' => ticks k' (tick s)
  end.

(** ** The requests *)

(** [Math.round(c * cellSize) + 2] in the exact reading; [Double.targetOf]
    is the binary64 one. *)
Definition targetOf (s : Maze) (c : Z) : Z :=
  Math_round (inject_Z c * cellSize s)%Q + 2.

(** [moveSprite x y]: the promise executor runs at once, so the callback is
    on the ticker and [spriteCoordinates] is overwritten before the call
    returns.  The result is the new promise and the instance. *)
Definition moveSprite (x y : Z) (s : Maze) : nat * Maze :=
  let h := length (promises s) in
  let l := mkListener h (targetOf s x) (targetOf s y) in
  let s1 := set_promises (promises s ++ [Pending]) s in
  let s2 := set_ticker (ticker s1 ++ [l]) s1 in
  (h, set_spriteCoordinates (Point.mk x y) s2).

Definition moveSpriteY (n : Z) (s : Maze) : nat * Maze :=
  moveSprite (Point.x (spriteCoordinates s))
             (Point.y (spriteCoordinates s) + n) s.

Definition moveSpriteX (n : Z) (s : Maze) : nat * Maze :=
  moveSprite (Point.x (spriteCoordinates s) + n)
             (Point.y (spriteCoordinates s)) s.

Definition resetSprite (s : Maze) : Maze :=
  let c := Point.mk 0 1 in
  let s1 := set_spriteCoordinates c s in
  set_sprite (Point.mk (Math_round (inject_Z (Point.x c) * cellSize s1)%Q)
                       (Math_round (inject_Z (Point.y c) * cellSize s1)%Q)) s1.

(** ** What can happen to an instance *)

Inductive Event :=
| MoveSprite (x y : Z)
| MoveSpriteX (n : Z)
| MoveSpriteY (n : Z)
| ResetSprite
| Tick.

Definition step (s : Maze) (e : Event) : Maze :=
  match e with
  | MoveSprite x y => snd (moveSprite x y s)
  | MoveSpriteX n => snd (moveSpriteX n s)
  | MoveSpriteY n => snd (moveSpriteY n s)
  | ResetSprite => resetSprite s
  | Tick => tick s
  end.

Definition run (es : list Event) (s : Maze) : Maze := fold_left step es s.

(** ** A worked instance: a 5x5 maze on a 500 pixel canvas *)

Definition grid5 : list (list Z) :=
  [ [1; 1; 1; 1; 1];
    [0; 0; 0; 0; 1];
    [1; 1; 1; 0; 1];
    [1; 1; 1; 0; 0];
    [1; 1; 1; 0; 0] ].

Definition maze5 : Maze := constructor 500 grid5 "R3D2" true.

(** ** Vocabulary for the statements *)

(** [grid[row][col]], when both indices are in range. *)
Definition cellAt (g : list (list Z)) (row col : Z) : option Z :=
  if (row <? 0) || (col <? 0) then None
  else g !! Z.to_nat row ≫= fun r => r !! Z.to_nat col.

(** A WALL cell is a cell of the grid that is not 0: the cells [drawMaze]
    draws. *)
Definition isWallCell (g : list (list Z)) (row col : Z) : bool :=
  match cellAt g row col with
  | Some cell => negb (cell =? 0)
  | None => false
  end.

(** Cell [(col, row)] contains the sprite position: the position is at or
    past the cell's left and top edges and before its right and bottom
    edges. *)
Definition inCell (s : Maze) (col row : Z) : Prop :=
  (inject_Z col * cellSize s <= inject_Z (Point.x (sprite s))
   /\ inject_Z (Point.x (sprite s)) < inject_Z (col + 1) * cellSize s
   /\ inject_Z row * cellSize s <= inject_Z (Point.y (sprite s))
   /\ inject_Z (Point.y (sprite s)) < inject_Z (row + 1) * cellSize s)%Q.

(** What the constructor establishes and no method changes: a canvas with a
    positive width, a grid with at least one row, and the walls [drawMaze]
    drew for them. *)
Definition constructed (s : Maze) : Prop :=
  0 < view_width s /\ grid s <> [] /\
  walls s = drawMaze (view_width s) (grid s).

(** Pixels still to go for the move of callback [l]. *)
Definition remaining (l : Listener) (s : Maze) : nat :=
  Z.to_nat (Z.abs (targetX l - Point.x (sprite s))
            + Z.abs (targetY l - Point.y (sprite s))).

(** The sprite is on the target pixel of callback [l]. *)
Definition onTarget (l : Listener) (s : Maze) : bool :=
  (Point.x (sprite s) =? targetX l) && (Point.y (sprite s) =? targetY l).

(** One unit along x while x is off target, else one unit along y, the sign
    by comparing the current value to the target. *)
Definition advancesToward (l : Listener) (p p' : Point.t) : Prop :=
  (Point.x p <> targetX l
   /\ Point.x p' = Point.x p + (if Point.x p <? targetX l then 1 else -1)
   /\ Point.y p' = Point.y p)
  \/ (Point.x p = targetX l /\ Point.y p <> targetY l
      /\ Point.x p' = Point.x p
      /\ Point.y p' = Point.y p + (if Point.y p <? targetY l then 1 else -1)).

(** The fields no callback writes: the canvas width, the grid, the maze
    code, the walls, the cell coordinates and the handler. *)
Record sameSetup (s s' : Maze) : Prop := {
  same_width : view_width s' = view_width s;
  same_grid : grid s' = grid s;
  same_mazeCode : mazeCode s' = mazeCode s;
  same_walls : walls s' = walls s;
  same_spriteCoordinates : spriteCoordinates s' = spriteCoordinates s;
  same_onSuccess : onSuccess s' = onSuccess s
}.

(** The bounds test as it would answer with the sprite on pixel [p]. *)
Definition blockedAt (s : Maze) (p : Point.t) : bool :=
  isSpriteOutOfBounds (set_sprite p s).

(** A cell no move can end in: a WALL cell of the grid, or a cell whose
    column or row is outside [0, n-1]. *)
Definition blockedCell (s : Maze) (col row : Z) : Prop :=
  isWallCell (grid s) row col = true
  \/ ~ (0 <= col <= gridLength (grid s) - 1)
  \/ ~ (0 <= row <= gridLength (grid s) - 1).

(** ** Worked runs on [maze5] *)

(** A request into the wall cell below the entrance. *)
Definition intoWall5 : Maze := snd (moveSpriteY 1 maze5).

(** Two requests with no tick in between. *)
Definition twoMoves5 : Maze :=
  snd (moveSprite 3 1 (snd (moveSprite 1 1 maze5))).

(** Two moves, each run to completion: along the corridor, then down into
    the exit region. *)
Definition firstWin5 : Maze :=
  run (MoveSprite 3 1 :: repeat Tick 301
       ++ MoveSprite 3 3 :: repeat Tick 201) maze5.

(** The same run one tick short: the sprite is on the second move's target
    pixel, in the exit region, and the callback has yet to notice. *)
Definition beforeWin5 : Maze :=
  run (MoveSprite 3 1 :: repeat Tick 301
       ++ MoveSprite 3 3 :: repeat Tick 200) maze5.

(** A third completed move, one cell further inside the exit region. *)
Definition winRun5 : Maze :=
  run (MoveSprite 3 4 :: repeat Tick 101) firstWin5.

(** Both promises pending, the bounds test passing, and the sprite off the
    first move's target pixel. *)
Definition bothInFlight (s : Maze) : bool :=
  negb (isSpriteOutOfBounds s)
  && match promises s with
     | [Pending; Pending] => true
     | _ => false
     end
  && negb (onTarget (mkListener 0 102 102) s).

(** A reset while a move is on its way. *)
Definition resetMidMove5 : Maze :=
  resetSprite (ticks 10 (snd (moveSprite 3 1 maze5))).

(** ** Vocabulary for further properties *)

(** How many cells of the grid are not 0. *)
Definition wallCells (g : list (list Z)) : nat :=
  length (filter (fun cell => cell <> 0) (concat g)).

(** A cell a move may pass through: inside the grid and not a wall. *)
Definition openCell (s : Maze) (col row : Z) : Prop :=
  isWallCell (grid s) row col = false
  /\ 0 <= col <= gridLength (grid s) - 1
  /\ 0 <= row <= gridLength (grid s) - 1.

Definition between (a b v : Z) : Prop := Z.min a b <= v <= Z.max a b.

(** The pixels a lone callback [l] visits when it starts on [p0]: along x
    at the height of [p0] up to the target column, then along y in the
    target column. *)
Definition onPath (l : Listener) (p0 p : Point.t) : Prop :=
  (Point.y p = Point.y p0 /\ between (Point.x p0) (targetX l) (Point.x p))
  \/ (Point.x p = targetX l /\ between (Point.y p0) (targetY l) (Point.y p)).

(** Callbacks and promises go together: the callbacks on the ticker hold
    different promises, and a promise is pending exactly when its callback
    is on the ticker. *)
Definition tickerMatchesPromises (s : Maze) : Prop :=
  NoDup (map handle (ticker s))
  /\ forall h, promises s !! h = Some Pending <-> In h (map handle (ticker s)).

(** What [settle] does to the list of promises. *)
Definition settledList (h : nat) (v : PromiseState)
    (ps : list PromiseState) : list PromiseState :=
  match ps !! h with
  | Some Pending => <[h := v]> ps
  | _ => ps
  end.

(** Pixels between two positions, along x plus along y. *)
Definition pixelDistance (p q : Point.t) : Z :=
  Z.abs (Point.x p - Point.x q) + Z.abs (Point.y p - Point.y q).

(** The same 5x5 maze on a canvas 502 pixels wide: cells of 100.4 pixels. *)
Definition maze502 : Maze := constructor 502 grid5 "R3D2" true.

(** ** The same arithmetic in binary64

    What maze.js computes with JavaScript numbers, on primitive floats:
    [cellSize], the wall bounds PIXI reports, [Rectangle.contains], the
    bounds test and the target pixel of a move.  The sprite position stays
    an integer; [ofZ] is the number holding it. *)

Module Double.

(** The JavaScript number holding the integer [z]; exact below 2^53 in
    magnitude. *)
Definition ofZ (z : Z) : float :=
  match z with
  | Z0 => PrimFloat.zero
  | Zpos p => PrimFloat.of_uint63 (Uint63.of_Z (Zpos p))
  | Zneg p => PrimFloat.opp (PrimFloat.of_uint63 (Uint63.of_Z (Zpos p)))
  end.

(** [Math.floor]: a finite number is [m * 2^e]; with [e >= 0] it is an
    integer already, otherwise the floor is the floored quotient of [m] by
    [2^-e].  Zeros, infinities and NaN are returned as they are. *)
Definition Math_floor (f : float) : float :=
  match Prim2SF f with
  | S754_finite s m e =>
      if (0 <=? e)%Z then f
      else ofZ ((if s then Zneg m else Zpos m) / 2 ^ (- e))
  | _ => f
  end.

(** [Math.round]: the nearest integer, ties towards +infinity, computed on
    the exact value of the number: [floor (m * 2^e + 1/2)]. *)
Definition Math_round (f : float) : float :=
  match Prim2SF f with
  | S754_finite s m e =>
      if (0 <=? e)%Z then f
      else ofZ ((2 * (if s then Zneg m else Zpos m) + 2 ^ (- e))
                / 2 ^ (1 - e))
  | _ => f
  end.

Record Rectangle := mkRectangle {
  rect_x : float;
  rect_y : float;
  rect_width : float;
  rect_height : float
}.

(** PIXI's [Rectangle.contains]. *)
Definition contains (r : Rectangle) (px py : float) : bool :=
  if (rect_width r <=? 0)%float || (rect_height r <=? 0)%float then false
  else if (rect_x r <=? px)%float && (px <? rect_x r + rect_width r)%float
       then (rect_y r <=? py)%float && (py <? rect_y r + rect_height r)%float
       else false.

Definition cellSize (width : Z) (g : list (list Z)) : float :=
  (ofZ width / ofZ (gridLength g))%float.

(** [getBounds] of the square [drawRect(0, 0, cellSize, cellSize)] placed at
    [(j * cellSize, i * cellSize)]: PIXI takes the corners
    [(0, 0)] and [(cellSize, cellSize)] through the translation and reports
    the minimum corner and the difference of the two. *)
Definition wallBounds (cs : float) (i j : Z) : Rectangle :=
  let tx := (ofZ j * cs)%float in
  let ty := (ofZ i * cs)%float in
  mkRectangle tx ty ((cs + tx) - tx)%float ((cs + ty) - ty)%float.

Fixpoint drawRow (cs : float) (i j : Z) (row : list Z) : list Rectangle :=
  match row with
  | [] => []
  | cell :: rest =>
      (if cell =? 0 then [] else [wallBounds cs i j]) ++ drawRow cs i (j + 1) rest
  end.

Fixpoint drawRows (cs : float) (i : Z) (rows : list (list Z))
    : list Rectangle :=
  match rows with
  | [] => []
  | row :: rest => drawRow cs i 0 row ++ drawRows cs (i + 1) rest
  end.

Definition drawMaze (width : Z) (g : list (list Z)) : list Rectangle :=
  drawRows (cellSize width g) 0 g.

(** [isSpriteOutOfBounds], with the walls [drawMaze] drew for the
    instance's width and grid. *)
Definition isSpriteOutOfBounds (s : Maze) : bool :=
  let cs := cellSize (view_width s) (grid s) in
  let px := ofZ (Point.x (sprite s)) in
  let py := ofZ (Point.y (sprite s)) in
  let x := Math_floor (px / cs)%float in
  let y := Math_floor (py / cs)%float in
  if existsb (fun wall => contains wall px py)
             (drawMaze (view_width s) (grid s))
  then true
  else (x <? 0)%float || (y <? 0)%float
       || (ofZ (gridLength (grid s)) <=? x)%float
       || (ofZ (gridLength (grid s)) <=? y)%float.

(** [Math.round(c * cellSize) + 2], the target of [moveSprite] along one
    axis. *)
Definition targetOf (s : Maze) (c : Z) : float :=
  (Math_round (ofZ c * cellSize (view_width s) (grid s)) + 2)%float.

End Double.

(** ** Where the two readings agree *)

(** Sizes far below 2^53: the canvas, the grid and the sprite's pixel. *)
Definition pixelLimit : Z := 2 ^ 24.

Definition screenSized (s : Maze) : Prop :=
  view_width s < pixelLimit /\ gridLength (grid s) < pixelLimit
  /\ Z.abs (Point.x (sprite s)) < pixelLimit
  /\ Z.abs (Point.y (sprite s)) < pixelLimit.

(** [cellSize] is a whole number of pixels. *)
Definition wholeCells (s : Maze) : Prop :=
  view_width s mod gridLength (grid s) = 0.

(** The sprite's pixel is on no cell edge: neither [x] nor [y] is a whole
    multiple of [cellSize]. *)
Definition offEdges (s : Maze) : Prop :=
  (Point.x (sprite s) * gridLength (grid s)) mod view_width s <> 0
  /\ (Point.y (sprite s) * gridLength (grid s)) mod view_width s <> 0.

(** The binary64 bounds test and the exact one give the same answer in
    state [s] and in the [k] states that follow it tick by tick. *)
Fixpoint readingsAgree (k : nat) (s : Maze) : bool :=
  Bool.eqb (Double.isSpriteOutOfBounds s) (isSpriteOutOfBounds s)
  && match k with
     | O => true
     | S k' => readingsAgree k' (tick s)
     end.

(** ** A 14x14 grid on a canvas 492 pixels wide

    Cells of 492/14 = 35.142857... pixels; the edge between columns 6 and 7
    is exactly pixel 246.  One wall, in row 1. *)

Definition edgeGrid (col : nat) : list (list Z) :=
  <[1%nat := <[col := 1]> (repeat 0 14)]> (repeat (repeat 0 14) 14).

Definition edgeMaze (col : nat) (p : Point.t) : Maze :=
  set_sprite p (constructor 492 (edgeGrid col) "" false).

(** The same grid on a canvas 495 pixels wide: column 7 starts at 247.5. *)
Definition halfMaze : Maze := constructor 495 (edgeGrid 13) "" false.

(** * Worked values on [maze5]

    Cells are 100 pixels wide.  The sprite starts on pixel (3, 103), inside
    the entrance cell (0, 1); a request for cell (3, 1) aims at pixel
    (302, 102). *)

Example maze5_sprite : sprite maze5 = Point.mk 3 103.
Proof. reflexivity. Qed.

Example maze5_walls : length (walls maze5) = 16%nat.
Proof. reflexivity. Qed.

Example maze5_target :
  ticker (snd (moveSprite 3 1 maze5)) = [mkListener 0 302 102].
Proof. reflexivity. Qed.

Example maze5_start_in_bounds :
  isSpriteOutOfBounds maze5 = false /\ isSpriteAtFinish maze5 = false.
Proof. split; reflexivity. Qed.

Example maze5_first_tick :
  sprite (tick (snd (moveSprite 3 1 maze5))) = Point.mk 4 103.
Proof. reflexivity. Qed.

Example maze5_into_wall :
  sprite (ticks 98 intoWall5) = Point.mk 2 200
  /\ isSpriteOutOfBounds (ticks 98 intoWall5) = true.
Proof. vm_compute. split; reflexivity. Qed.

(** * Arithmetic of cells and pixels *)

Section CellArithmetic.
Variables W n : Z.
Hypothesis HW : 0 < W.
Hypothesis Hn : 0 < n.

Lemma Qfloor_inject_div (a b : Z) :
  0 < b -> Qfloor (inject_Z a / inject_Z b)%Q = a / b.
Proof.
  intros Hb. destruct b as [|p|p]; try lia.
  unfold Qdiv, Qinv, inject_Z, Qmult, Qfloor. simpl.
  rewrite Z.mul_1_r. reflexivity.
Qed.

Lemma pixel_over_cellSize (p : Z) :
  Math_floor (inject_Z p / (inject_Z W / inject_Z n))%Q = p * n / W.
Proof.
  unfold Math_floor.
  rewrite <- (Qfloor_inject_div (p * n) W HW).
  apply Qfloor_comp.
  destruct W as [|w|w]; try lia. destruct n as [|m|m]; try lia.
  unfold Qdiv, Qinv, Qeq, inject_Z, Qmult. simpl. lia.
Qed.

Lemma round_cell_origin (c : Z) :
  Math_round (inject_Z c * (inject_Z W / inject_Z n))%Q
  = (2 * c * W + n) / (2 * n).
Proof.
  unfold Math_round.
  rewrite <- (Qfloor_inject_div (2 * c * W + n) (2 * n)) by lia.
  apply Qfloor_comp.
  destruct W as [|w|w]; try lia. destruct n as [|m|m]; try lia.
  unfold Qdiv, Qinv, Qeq, inject_Z, Qmult, Qplus. simpl. lia.
Qed.

Lemma cellSize_positive : Qle_bool (inject_Z W / inject_Z n)%Q 0 = false.
Proof.
  apply not_true_iff_false. rewrite Qle_bool_iff.
  destruct W as [|w|w]; try lia. destruct n as [|m|m]; try lia.
  unfold Qdiv, Qinv, Qle, inject_Z, Qmult. simpl. lia.
Qed.

Lemma Qle_edge (a b : Z) :
  (inject_Z a * (inject_Z W / inject_Z n) <= inject_Z b)%Q
  <-> a * W <= b * n.
Proof.
  destruct W as [|w|w]; try lia. destruct n as [|m|m]; try lia.
  unfold Qdiv, Qinv, Qle, inject_Z, Qmult. simpl. lia.
Qed.

Lemma Qlt_edge (a b : Z) :
  (inject_Z b < inject_Z a * (inject_Z W / inject_Z n))%Q
  <-> b * n < a * W.
Proof.
  destruct W as [|w|w]; try lia. destruct n as [|m|m]; try lia.
  unfold Qdiv, Qinv, Qlt, inject_Z, Qmult. simpl. lia.
Qed.

Lemma Qle_bool_edge (a b : Z) :
  Qle_bool (inject_Z a * (inject_Z W / inject_Z n))%Q (inject_Z b) = true
  <-> a * W <= b * n.
Proof. rewrite Qle_bool_iff. apply Qle_edge. Qed.

Lemma Qltb_far_edge (a b : Z) :
  Qltb (inject_Z b)
       (inject_Z a * (inject_Z W / inject_Z n)
        + inject_Z W / inject_Z n)%Q = true
  <-> b * n < (a + 1) * W.
Proof.
  unfold Qltb. rewrite negb_true_iff, <- not_true_iff_false, Qle_bool_iff.
  destruct W as [|w|w]; try lia. destruct n as [|m|m]; try lia.
  unfold Qdiv, Qinv, Qle, inject_Z, Qmult, Qplus. simpl. nia.
Qed.

(** A pixel is in one cell only: the one its floored quotient names. *)
Lemma cell_unique (c p : Z) :
  c * W <= p * n < (c + 1) * W <-> c = p * n / W.
Proof.
  split.
  - intros H. apply (Z.div_unique _ _ _ (p * n - c * W)); lia.
  - intros ->. pose proof (Z.mul_div_le (p * n) W HW).
    pose proof (Z.mul_succ_div_gt (p * n) W HW). lia.
Qed.

(** PIXI's test on the square of cell [(j, i)], in integers. *)
Lemma contains_wallBounds (i j px py : Z) :
  contains (wallBounds (inject_Z W / inject_Z n) i j)
           (inject_Z px) (inject_Z py) = true
  <-> j = px * n / W /\ i = py * n / W.
Proof.
  unfold contains, wallBounds; simpl.
  rewrite cellSize_positive; simpl.
  rewrite <- !cell_unique.
  pose proof (Qle_bool_edge j px) as Hx1.
  pose proof (Qltb_far_edge j px) as Hx2.
  pose proof (Qle_bool_edge i py) as Hy1.
  pose proof (Qltb_far_edge i py) as Hy2.
  destruct (Qle_bool (inject_Z j * _) (inject_Z px));
    destruct (Qltb (inject_Z px) _);
    destruct (Qle_bool (inject_Z i * _) (inject_Z py));
    destruct (Qltb (inject_Z py) _); simpl;
    intuition (try discriminate; try lia).
Qed.
End CellArithmetic.

(** * The wall list *)

Section Walls.
Variable hit : Rectangle -> bool.
Variable cs : Q.

Lemma existsb_drawRow (i : Z) (row : list Z) : forall j0,
  existsb hit (drawRow cs i j0 row) = true <->
  exists (c : nat) (cell : Z),
    row !! c = Some cell /\ cell <> 0
    /\ hit (wallBounds cs i (j0 + Z.of_nat c)) = true.
Proof.
  induction row as [|cell rest IH]; intros j0; simpl.
  - split; [discriminate | intros (c & v & H & _); destruct c; discriminate].
  - rewrite existsb_app, orb_true_iff, IH. split.
    + intros [H | (c & v & Hc & Hv & Hh)].
      * destruct (Z.eqb_spec cell 0); simpl in H; [discriminate|].
        rewrite orb_false_r in H.
        exists 0%nat, cell. rewrite Z.add_0_r. auto.
      * exists (S c), v. repeat split; auto.
        replace (j0 + Z.of_nat (S c)) with (j0 + 1 + Z.of_nat c) by lia. auto.
    + intros (c & v & Hc & Hv & Hh). destruct c as [|c].
      * left. simpl in Hc. injection Hc as ->.
        destruct (Z.eqb_spec v 0); [contradiction|].
        simpl. rewrite Z.add_0_r in Hh. now rewrite Hh.
      * right. exists c, v. repeat split; auto.
        replace (j0 + 1 + Z.of_nat c) with (j0 + Z.of_nat (S c)) by lia. auto.
Qed.

Lemma existsb_drawRows (rows : list (list Z)) : forall i0,
  existsb hit (drawRows cs i0 rows) = true <->
  exists (r c : nat) (row : list Z) (cell : Z),
    rows !! r = Some row /\ row !! c = Some cell /\ cell <> 0
    /\ hit (wallBounds cs (i0 + Z.of_nat r) (Z.of_nat c)) = true.
Proof.
  induction rows as [|row rest IH]; intros i0; simpl.
  - split; [discriminate|].
    intros (r & c & w & v & H & _); destruct r; discriminate.
  - rewrite existsb_app, orb_true_iff, existsb_drawRow, IH. split.
    + intros [(c & v & Hc & Hv & Hh) | (r & c & w & v & Hr & Hc & Hv & Hh)].
      * exists 0%nat, c, row, v. rewrite Z.add_0_r. auto.
      * exists (S r), c, w, v. repeat split; auto.
        replace (i0 + Z.of_nat (S r)) with (i0 + 1 + Z.of_nat r) by lia. auto.
    + intros (r & c & w & v & Hr & Hc & Hv & Hh). destruct r as [|r].
      * left. simpl in Hr. injection Hr as ->.
        exists c, v. rewrite Z.add_0_r in Hh. auto.
      * right. exists r, c, w, v. repeat split; auto.
        replace (i0 + 1 + Z.of_nat r) with (i0 + Z.of_nat (S r)) by lia. auto.
Qed.
End Walls.

Lemma isWallCell_true (g : list (list Z)) (row col : Z) :
  isWallCell g row col = true <->
  exists (r c : nat) (w : list Z) (cell : Z),
    row = Z.of_nat r /\ col = Z.of_nat c
    /\ g !! r = Some w /\ w !! c = Some cell /\ cell <> 0.
Proof.
  unfold isWallCell, cellAt. split.
  - destruct (Z.ltb_spec row 0), (Z.ltb_spec col 0); simpl; try discriminate.
    destruct (g !! Z.to_nat row) as [w|] eqn:Hw; simpl; [|discriminate].
    destruct (w !! Z.to_nat col) as [cell|] eqn:Hc; [|discriminate].
    destruct (Z.eqb_spec cell 0); [discriminate|]. intros _.
    exists (Z.to_nat row), (Z.to_nat col), w, cell.
    repeat split; auto; lia.
  - intros (r & c & w & cell & -> & -> & Hw & Hc & Hne).
    destruct (Z.ltb_spec (Z.of_nat r) 0), (Z.ltb_spec (Z.of_nat c) 0);
      try lia; simpl.
    rewrite !Nat2Z.id, Hw. simpl. rewrite Hc.
    destruct (Z.eqb_spec cell 0); [contradiction | reflexivity].
Qed.

Lemma gridLength_positive (g : list (list Z)) : g <> [] -> 0 < gridLength g.
Proof. destruct g; [contradiction|]. unfold gridLength. simpl. lia. Qed.

Lemma spriteCellX_div (s : Maze) :
  constructed s ->
  spriteCellX s
  = Point.x (sprite s) * gridLength (grid s) / view_width s.
Proof.
  intros (HW & Hg & _). unfold spriteCellX, cellSize, cellSizeOf.
  apply pixel_over_cellSize; auto using gridLength_positive.
Qed.

Lemma spriteCellY_div (s : Maze) :
  constructed s ->
  spriteCellY s
  = Point.y (sprite s) * gridLength (grid s) / view_width s.
Proof.
  intros (HW & Hg & _). unfold spriteCellY, cellSize, cellSizeOf.
  apply pixel_over_cellSize; auto using gridLength_positive.
Qed.

(** The cell that contains the sprite is the one the two floors name. *)
Lemma inCell_floor (s : Maze) (col row : Z) :
  constructed s ->
  inCell s col row <-> col = spriteCellX s /\ row = spriteCellY s.
Proof.
  intros Hs. rewrite spriteCellX_div, spriteCellY_div by assumption.
  destruct Hs as (HW & Hg & _). apply gridLength_positive in Hg.
  unfold inCell, cellSize, cellSizeOf.
  rewrite !Qle_edge, !Qlt_edge by assumption.
  rewrite <- !cell_unique by assumption. tauto.
Qed.

(** The loop over [this.walls] finds a wall exactly when the sprite's cell
    is a WALL cell of the grid. *)
Lemma wall_hit_iff (s : Maze) :
  constructed s ->
  existsb (fun wall => contains wall (inject_Z (Point.x (sprite s)))
                                     (inject_Z (Point.y (sprite s))))
          (walls s) = true
  <-> isWallCell (grid s) (spriteCellY s) (spriteCellX s) = true.
Proof.
  intros Hs. rewrite spriteCellX_div, spriteCellY_div by assumption.
  destruct Hs as (HW & Hg & ->). apply gridLength_positive in Hg.
  unfold drawMaze, cellSizeOf.
  rewrite existsb_drawRows, isWallCell_true.
  split; intros (r & c & w & cell & H).
  - destruct H as (Hr & Hc & Hne & Hh).
    apply contains_wallBounds in Hh as [Hx Hy]; auto.
    exists r, c, w, cell. repeat split; auto; lia.
  - destruct H as (Hy & Hx & Hr & Hc & Hne).
    exists r, c, w, cell. repeat split; auto.
    apply contains_wallBounds; [assumption | assumption | split; lia].
Qed.

(** * What a callback leaves alone *)

Ltac unfold_step :=
  unfold animateMotion, settle, ticker_remove, callOnSuccess,
         set_sprite, set_ticker, set_promises, set_successCalls,
         set_spriteCoordinates.

Ltac frame_cases :=
  unfold_step;
  repeat match goal with
         | |- context [if ?b then _ else _] => destruct b; simpl
         | |- context [match ?o with Some _ => _ | None => _ end] =>
             destruct o; simpl
         | |- context [match ?p with Pending => _ | _ => _ end] =>
             destruct p; simpl
         end;
  try reflexivity.

Lemma sameSetup_refl (s : Maze) : sameSetup s s.
Proof. split; reflexivity. Qed.

Lemma sameSetup_trans (s1 s2 s3 : Maze) :
  sameSetup s1 s2 -> sameSetup s2 s3 -> sameSetup s1 s3.
Proof. intros [] []; split; congruence. Qed.

Lemma animateMotion_sameSetup (l : Listener) (s : Maze) :
  sameSetup s (animateMotion l s).
Proof. split; frame_cases. Qed.

Lemma fold_animateMotion_sameSetup (ls : list Listener) : forall s,
  sameSetup s (fold_left (fun st l => animateMotion l st) ls s).
Proof.
  induction ls as [|l ls IH]; intros s; simpl.
  - apply sameSetup_refl.
  - eapply sameSetup_trans; [apply animateMotion_sameSetup | apply IH].
Qed.

Lemma tick_sameSetup (s : Maze) : sameSetup s (tick s).
Proof. apply fold_animateMotion_sameSetup. Qed.

Lemma ticks_sameSetup (k : nat) : forall s, sameSetup s (ticks k s).
Proof.
  induction k as [|k IH]; intros s; simpl.
  - apply sameSetup_refl.
  - eapply sameSetup_trans; [apply tick_sameSetup | apply IH].
Qed.

Lemma ticks_succ (k : nat) : forall s, ticks (S k) s = tick (ticks k s).
Proof.
  induction k as [|k IH]; intros s; [reflexivity|].
  change (ticks (S (S k)) s) with (ticks (S k) (tick s)).
  rewrite IH. reflexivity.
Qed.

Lemma constructed_sameSetup (s s' : Maze) :
  sameSetup s s' -> constructed s -> constructed s'.
Proof.
  intros [Hw Hg _ Hwalls _ _] (H1 & H2 & H3).
  unfold constructed. rewrite Hw, Hg, Hwalls. auto.
Qed.

(** The bounds test reads the sprite position and the setup only. *)
Lemma isSpriteOutOfBounds_ext (s s' : Maze) :
  view_width s' = view_width s -> grid s' = grid s -> walls s' = walls s ->
  sprite s' = sprite s ->
  isSpriteOutOfBounds s' = isSpriteOutOfBounds s.
Proof.
  intros Hw Hg Hwalls Hp.
  unfold isSpriteOutOfBounds, spriteCellX, spriteCellY, cellSize.
  rewrite Hw, Hg, Hwalls, Hp. reflexivity.
Qed.

Lemma step_sameGrid (s : Maze) (e : Event) :
  grid (step s e) = grid s /\ mazeCode (step s e) = mazeCode s.
Proof.
  destruct e; simpl; auto.
  destruct (tick_sameSetup s); auto.
Qed.

(** * The bounds test, cell by cell *)

Lemma isSpriteOutOfBounds_cells (s : Maze) :
  constructed s ->
  isSpriteOutOfBounds s
  = isWallCell (grid s) (spriteCellY s) (spriteCellX s)
    || ((spriteCellX s <? 0) || (spriteCellY s <? 0)
        || (spriteCellX s >=? gridLength (grid s))
        || (spriteCellY s >=? gridLength (grid s))).
Proof.
  intros Hs. pose proof (wall_hit_iff s Hs) as Hw.
  unfold isSpriteOutOfBounds.
  destruct (existsb _ (walls s));
    destruct (isWallCell (grid s) (spriteCellY s) (spriteCellX s));
    simpl; try reflexivity.
  - destruct Hw as [Hw _]. specialize (Hw eq_refl). discriminate.
  - destruct Hw as [_ Hw]. specialize (Hw eq_refl). discriminate.
Qed.

(** The pixel [moveSprite] aims at lies in the requested cell, once a cell
    is wider than two and a half pixels. *)
Lemma target_in_cell (W n c : Z) :
  0 < W -> 0 < n -> 5 * n < 2 * W ->
  ((2 * c * W + n) / (2 * n) + 2) * n / W = c.
Proof.
  intros HW Hn Hroom. symmetry. apply cell_unique; try assumption.
  pose proof (Z.mul_div_le (2 * c * W + n) (2 * n)).
  pose proof (Z.mul_succ_div_gt (2 * c * W + n) (2 * n)).
  nia.
Qed.

Lemma set_sprite_sameSetup (p : Point.t) (s : Maze) :
  sameSetup s (set_sprite p s).
Proof. split; reflexivity. Qed.

Lemma targetOf_div (s : Maze) (c : Z) :
  constructed s ->
  targetOf s c
  = (2 * c * view_width s + gridLength (grid s))
    / (2 * gridLength (grid s)) + 2.
Proof.
  intros (HW & Hg & _). unfold targetOf, cellSize, cellSizeOf.
  rewrite round_cell_origin; auto using gridLength_positive.
Qed.

Lemma target_blocked (s : Maze) (x y : Z) :
  constructed s ->
  5 * gridLength (grid s) < 2 * view_width s ->
  blockedCell s x y ->
  blockedAt s (Point.mk (targetOf s x) (targetOf s y)) = true.
Proof.
  intros Hs Hroom Hbad. unfold blockedAt.
  set (p := Point.mk (targetOf s x) (targetOf s y)).
  assert (Hs' : constructed (set_sprite p s))
    by (eapply constructed_sameSetup; eauto using set_sprite_sameSetup).
  rewrite isSpriteOutOfBounds_cells by assumption.
  rewrite spriteCellX_div, spriteCellY_div by assumption.
  simpl. rewrite !targetOf_div by assumption.
  destruct Hs as (HW & Hg & _). apply gridLength_positive in Hg.
  rewrite !target_in_cell by assumption.
  destruct Hbad as [Hwall | [Hx | Hy]].
  - rewrite Hwall. reflexivity.
  - apply orb_true_iff. right.
    destruct (Z.ltb_spec x 0), (Z.geb_spec x (gridLength (grid s)));
      simpl; rewrite ?orb_true_r; try reflexivity; lia.
  - apply orb_true_iff. right.
    destruct (Z.ltb_spec y 0), (Z.geb_spec y (gridLength (grid s)));
      simpl; rewrite ?orb_true_r; try reflexivity; lia.
Qed.

(** * One callback on the ticker *)

Lemma tick_single (l : Listener) (s : Maze) :
  ticker s = [l] -> tick s = animateMotion l s.
Proof. intros H. unfold tick. rewrite H. reflexivity. Qed.

Lemma remove_only_listener (l : Listener) :
  filter (fun l' => handle l' <> handle l) [l] = [].
Proof.
  rewrite filter_cons. destruct (decide (handle l <> handle l)) as [Hne|_].
  - contradiction.
  - reflexivity.
Qed.

Lemma onTarget_true (l : Listener) (s : Maze) :
  onTarget l s = true <-> sprite s = Point.mk (targetX l) (targetY l).
Proof.
  unfold onTarget. destruct (sprite s) as [px py]; simpl.
  rewrite andb_true_iff, !Z.eqb_eq. split.
  - intros [-> ->]. reflexivity.
  - intros H. injection H. auto.
Qed.

Lemma remaining_zero (l : Listener) (s : Maze) :
  remaining l s = 0%nat <-> onTarget l s = true.
Proof.
  unfold remaining, onTarget. rewrite andb_true_iff, !Z.eqb_eq. lia.
Qed.

(** The bounds test fired: the promise is rejected, the callback leaves the
    ticker, the sprite stays where it is. *)
Lemma animateMotion_blocked (l : Listener) (s : Maze) :
  isSpriteOutOfBounds s = true ->
  ticker s = [l] ->
  promises s !! handle l = Some Pending ->
  ticker (animateMotion l s) = []
  /\ promises (animateMotion l s) !! handle l
     = Some (Rejected "Out of bounds")
  /\ sprite (animateMotion l s) = sprite s.
Proof.
  intros Hb Ht Hp. unfold animateMotion. rewrite Hb.
  unfold settle. rewrite Hp. unfold ticker_remove. simpl.
  rewrite Ht, remove_only_listener. repeat split.
  apply list_lookup_insert_eq. eapply lookup_lt_Some; eauto.
Qed.

(** The bounds test passed and the sprite is off target: one unit towards
    it, x before y, and nothing else changes. *)
Lemma animateMotion_advance (l : Listener) (s : Maze) :
  isSpriteOutOfBounds s = false ->
  onTarget l s = false ->
  advancesToward l (sprite s) (sprite (animateMotion l s))
  /\ S (remaining l (animateMotion l s)) = remaining l s
  /\ ticker (animateMotion l s) = ticker s
  /\ promises (animateMotion l s) = promises s
  /\ successCalls (animateMotion l s) = successCalls s.
Proof.
  intros Hb Hoff. unfold animateMotion. rewrite Hb.
  unfold onTarget in Hoff. unfold advancesToward, remaining, toward.
  destruct (Z.eqb_spec (Point.x (sprite s)) (targetX l)) as [Hx|Hx]; simpl.
  - destruct (Z.eqb_spec (Point.y (sprite s)) (targetY l)) as [Hy|Hy];
      simpl in *; [discriminate|].
    repeat split; auto.
    destruct (Z.ltb_spec (Point.y (sprite s)) (targetY l)); lia.
  - repeat split; auto.
    destruct (Z.ltb_spec (Point.x (sprite s)) (targetX l)); lia.
Qed.

Lemma settle_frame (h : nat) (v : PromiseState) (s : Maze) :
  ticker (settle h v s) = ticker s
  /\ sprite (settle h v s) = sprite s
  /\ successCalls (settle h v s) = successCalls s.
Proof. unfold settle. destruct (promises s !! h) as [[]|]; auto. Qed.

Lemma settle_pending (h : nat) (v : PromiseState) (s : Maze) :
  promises s !! h = Some Pending ->
  promises (settle h v s) !! h = Some v.
Proof.
  intros Hp. unfold settle. rewrite Hp. simpl.
  apply list_lookup_insert_eq. eapply lookup_lt_Some; eauto.
Qed.

(** The bounds test passed and the sprite is on target: the callback leaves
    the ticker and the promise is resolved. *)
Lemma animateMotion_arrive (l : Listener) (s : Maze) :
  isSpriteOutOfBounds s = false ->
  onTarget l s = true ->
  ticker s = [l] ->
  promises s !! handle l = Some Pending ->
  ticker (animateMotion l s) = []
  /\ promises (animateMotion l s) !! handle l = Some Resolved
  /\ sprite (animateMotion l s) = sprite s.
Proof.
  intros Hb Hon Ht Hp. unfold animateMotion. rewrite Hb.
  unfold onTarget in Hon. apply andb_true_iff in Hon as [Hx Hy].
  rewrite Hx, Hy. simpl.
  set (s2 := if isSpriteAtFinish (ticker_remove l s)
             then callOnSuccess (ticker_remove l s) else ticker_remove l s).
  assert (H2 : ticker s2 = [] /\ promises s2 = promises s
               /\ sprite s2 = sprite s).
  { subst s2. unfold callOnSuccess, ticker_remove.
    destruct (isSpriteAtFinish _); [destruct (onSuccess _)|]; simpl;
      rewrite Ht, remove_only_listener; auto. }
  destruct H2 as (Ht2 & Hp2 & Hs2).
  destruct (settle_frame (handle l) Resolved s2) as (Ht3 & Hs3 & _).
  rewrite Ht3, Hs3, Ht2, Hs2. repeat split.
  apply settle_pending. rewrite Hp2. assumption.
Qed.

(** How often [onSuccess] runs in one callback: once when the callback
    completes its move with the sprite in the exit region and a handler was
    given, and not at all otherwise. *)
Lemma animateMotion_successCalls (l : Listener) (s : Maze) :
  successCalls (animateMotion l s)
  = if negb (isSpriteOutOfBounds s) && onTarget l s
       && isSpriteAtFinish s && onSuccess s
    then S (successCalls s) else successCalls s.
Proof.
  unfold animateMotion, onTarget.
  destruct (isSpriteOutOfBounds s); simpl.
  - unfold ticker_remove. simpl.
    destruct (settle_frame (handle l) (Rejected "Out of bounds") s)
      as (_ & _ & ->). reflexivity.
  - destruct (Point.x (sprite s) =? targetX l); simpl; [|reflexivity].
    destruct (Point.y (sprite s) =? targetY l); simpl; [|reflexivity].
    match goal with
    | |- successCalls (settle ?h ?v ?s2) = _ =>
        destruct (settle_frame h v s2) as (_ & _ & ->)
    end.
    change (isSpriteAtFinish (ticker_remove l s)) with (isSpriteAtFinish s).
    destruct (isSpriteAtFinish s); simpl; [|reflexivity].
    unfold callOnSuccess. simpl. destruct (onSuccess s); reflexivity.
Qed.

(** * A move alone on the ticker *)

Lemma blockedAt_ext (s s' : Maze) (p : Point.t) :
  view_width s' = view_width s -> grid s' = grid s -> walls s' = walls s ->
  blockedAt s' p = blockedAt s p.
Proof.
  intros Hw Hg Hwalls. unfold blockedAt.
  apply isSpriteOutOfBounds_ext; simpl; auto.
Qed.

Lemma blockedAt_sprite (s : Maze) :
  blockedAt s (sprite s) = isSpriteOutOfBounds s.
Proof.
  unfold blockedAt. apply isSpriteOutOfBounds_ext; reflexivity.
Qed.

(** While the bounds test keeps passing, a lone callback stays on the
    ticker with its promise pending, one pixel closer per tick. *)
Lemma lone_move_invariant (l : Listener) (k : nat) : forall s,
  ticker s = [l] ->
  promises s !! handle l = Some Pending ->
  (forall j, (j <= remaining l s)%nat ->
             isSpriteOutOfBounds (ticks j s) = false) ->
  (k <= remaining l s)%nat ->
  ticker (ticks k s) = [l]
  /\ promises (ticks k s) !! handle l = Some Pending
  /\ remaining l (ticks k s) = (remaining l s - k)%nat.
Proof.
  induction k as [|k IH]; intros s Ht Hp Hfree Hk; simpl.
  - repeat split; auto. lia.
  - assert (Hoff : onTarget l s = false).
    { apply not_true_iff_false. rewrite <- remaining_zero. lia. }
    pose proof (Hfree 0%nat ltac:(lia)) as H0. simpl in H0.
    destruct (animateMotion_advance l s H0 Hoff) as (_ & Hr & Ht' & Hp' & _).
    rewrite <- (tick_single l s Ht) in Hr, Ht', Hp'.
    destruct (IH (tick s)) as (A & B & C).
    + congruence.
    + congruence.
    + intros j Hj. apply (Hfree (S j)). lia.
    + lia.
    + repeat split; auto. lia.
Qed.

(** A lone callback whose target pixel fails the bounds test is rejected
    within [remaining + 1] ticks. *)
Lemma lone_move_blocked (l : Listener) (m : nat) : forall s,
  remaining l s = m ->
  ticker s = [l] ->
  promises s !! handle l = Some Pending ->
  blockedAt s (Point.mk (targetX l) (targetY l)) = true ->
  exists k, (k <= S m)%nat
    /\ promises (ticks k s) !! handle l = Some (Rejected "Out of bounds")
    /\ ticker (ticks k s) = [].
Proof.
  induction m as [|m IH]; intros s Hm Ht Hp Hblk.
  - exists 1%nat. simpl. rewrite (tick_single l s Ht).
    apply remaining_zero in Hm. pose proof Hm as Hon.
    apply onTarget_true in Hon. rewrite <- Hon, blockedAt_sprite in Hblk.
    destruct (animateMotion_blocked l s Hblk Ht Hp) as (A & B & _). auto.
  - destruct (isSpriteOutOfBounds s) eqn:Hb.
    + exists 1%nat. simpl. rewrite (tick_single l s Ht).
      destruct (animateMotion_blocked l s Hb Ht Hp) as (A & B & _).
      split; [lia | auto].
    + assert (Hoff : onTarget l s = false).
      { apply not_true_iff_false. rewrite <- remaining_zero. lia. }
      destruct (animateMotion_advance l s Hb Hoff) as (_ & Hr & Ht' & Hp' & _).
      rewrite <- (tick_single l s Ht) in Hr, Ht', Hp'.
      destruct (IH (tick s)) as (k & Hk & A & B).
      * lia.
      * congruence.
      * congruence.
      * destruct (tick_sameSetup s). rewrite (blockedAt_ext s); auto.
      * exists (S k). simpl. split; [lia | auto].
Qed.

Lemma moveSprite_registers (x y : Z) (s : Maze) :
  ticker (snd (moveSprite x y s))
  = ticker s ++ [mkListener (length (promises s)) (targetOf s x) (targetOf s y)]
  /\ promises (snd (moveSprite x y s)) = promises s ++ [Pending]
  /\ fst (moveSprite x y s) = length (promises s)
  /\ sprite (snd (moveSprite x y s)) = sprite s
  /\ spriteCoordinates (snd (moveSprite x y s)) = Point.mk x y.
Proof. unfold moveSprite. simpl. repeat split. Qed.

Lemma moveSprite_sameGrid (x y : Z) (s : Maze) :
  view_width (snd (moveSprite x y s)) = view_width s
  /\ grid (snd (moveSprite x y s)) = grid s
  /\ walls (snd (moveSprite x y s)) = walls s.
Proof. unfold moveSprite. simpl. repeat split. Qed.

Lemma ticks_spriteCoordinates (k : nat) (s : Maze) :
  spriteCoordinates (ticks k s) = spriteCoordinates s.
Proof. destruct (ticks_sameSetup k s). assumption. Qed.

(** * Requests into a wall or off the grid *)

(** C1, as stated, fails: the request below the entrance of [maze5] goes
    into the WALL cell (0, 2); its promise is rejected after 99 ticks, and
    [spriteCoordinates] is then the requested cell (0, 2), not the cell
    (0, 1) the sprite had settled in before the request. *)
Lemma blocked_move_moves_spriteCoordinates :
  spriteCoordinates maze5 = Point.mk 0 1
  /\ isWallCell (grid maze5) 2 0 = true
  /\ intoWall5 = snd (moveSprite 0 2 maze5)
  /\ promises (ticks 99 intoWall5) !! 0%nat = Some (Rejected "Out of bounds")
  /\ spriteCoordinates (ticks 99 intoWall5) = Point.mk 0 2
  /\ spriteCoordinates (ticks 99 intoWall5) <> spriteCoordinates maze5.
Proof.
  assert (Hc : spriteCoordinates (ticks 99 intoWall5) = Point.mk 0 2)
    by (rewrite ticks_spriteCoordinates; reflexivity).
  split; [reflexivity|]. split; [reflexivity|]. split; [reflexivity|].
  split; [vm_compute; reflexivity|]. split; [assumption|].
  rewrite Hc. discriminate.
Qed.

(** C1, amended: when no other move is in flight and a cell is wider than
    two and a half pixels, a request whose target cell is a WALL cell or has
    a column or row outside [0, n-1] is rejected with the reason
    "Out of bounds" after finitely many ticks, and [spriteCoordinates] is the
    requested cell from the request on, before and after the rejection. *)
Theorem blocked_move_is_rejected (x y : Z) (s : Maze) :
  constructed s ->
  5 * gridLength (grid s) < 2 * view_width s ->
  ticker s = [] ->
  blockedCell s x y ->
  let h := fst (moveSprite x y s) in
  let s1 := snd (moveSprite x y s) in
  (exists k, promises (ticks k s1) !! h = Some (Rejected "Out of bounds")
             /\ ticker (ticks k s1) = [])
  /\ (forall k, spriteCoordinates (ticks k s1) = Point.mk x y).
Proof.
  intros Hs Hroom Hidle Hbad. cbv zeta.
  destruct (moveSprite_registers x y s) as (Ht & Hp & Hh & _ & Hc).
  destruct (moveSprite_sameGrid x y s) as (Hw & Hg & Hwalls).
  rewrite Hidle in Ht. simpl in Ht. rewrite Hh.
  set (s1 := snd (moveSprite x y s)) in *.
  set (l := mkListener (length (promises s)) (targetOf s x) (targetOf s y))
    in Ht.
  split.
  - destruct (lone_move_blocked l (remaining l s1) s1 eq_refl Ht)
      as (k & _ & A & B).
    + rewrite Hp. apply list_lookup_middle. reflexivity.
    + pose proof (target_blocked s x y Hs Hroom Hbad) as Hblk.
      rewrite (blockedAt_ext s s1); auto.
    + exists k. auto.
  - intros k. rewrite ticks_spriteCoordinates. assumption.
Qed.

Lemma constructed_constructor (width : Z) (g : list (list Z))
    (code : string) (handler : bool) :
  0 < width -> g <> [] -> constructed (constructor width g code handler).
Proof. intros HW Hg. split; [exact HW|]. split; [exact Hg | reflexivity]. Qed.

Lemma constructed_maze5 : constructed maze5.
Proof. split; [reflexivity|]. split; [discriminate | reflexivity]. Qed.

(** On [maze5]: the request for the wall cell (0, 2) below the entrance. *)
Lemma blocked_move_is_rejected_witness :
  (exists k, promises (ticks k (snd (moveSprite 0 2 maze5)))
               !! fst (moveSprite 0 2 maze5)
             = Some (Rejected "Out of bounds")
             /\ ticker (ticks k (snd (moveSprite 0 2 maze5))) = [])
  /\ (forall k, spriteCoordinates (ticks k (snd (moveSprite 0 2 maze5)))
                = Point.mk 0 2).
Proof.
  apply (blocked_move_is_rejected 0 2 maze5).
  - exact constructed_maze5.
  - vm_compute. reflexivity.
  - reflexivity.
  - left. vm_compute. reflexivity.
Defined.

(** * The success handler *)

(** C2, as stated, fails: on [maze5] the second move completes in cell
    (3, 3) of the exit region and [onSuccess] runs; the third move completes
    in cell (3, 4), also in the exit region, and [onSuccess] runs again. *)
Lemma onSuccess_runs_twice :
  onSuccess maze5 = true
  /\ successCalls maze5 = 0%nat
  /\ promises firstWin5 = [Resolved; Resolved]
  /\ sprite firstWin5 = Point.mk 302 302
  /\ successCalls firstWin5 = 1%nat
  /\ promises winRun5 = [Resolved; Resolved; Resolved]
  /\ sprite winRun5 = Point.mk 302 402
  /\ successCalls winRun5 = 2%nat.
Proof. vm_compute. repeat split. Qed.

(** C2, amended: [onSuccess] is invoked once by every callback that
    completes its move (bounds test passed, sprite on the target pixel) with
    the sprite's cell in the exit region, however often it has been invoked
    before; a callback that does not complete a move, or completes it
    outside the exit region, does not invoke it. *)
Theorem onSuccess_runs_at_every_finish (l : Listener) (s : Maze) :
  (isSpriteOutOfBounds s = false /\ onTarget l s = true
   /\ isSpriteAtFinish s = true /\ onSuccess s = true ->
   successCalls (animateMotion l s) = S (successCalls s))
  /\ (isSpriteOutOfBounds s = true \/ onTarget l s = false
      \/ isSpriteAtFinish s = false ->
      successCalls (animateMotion l s) = successCalls s).
Proof.
  rewrite animateMotion_successCalls. split.
  - intros (-> & -> & -> & ->). reflexivity.
  - intros [-> | [-> | ->]]; simpl.
    + reflexivity.
    + rewrite andb_false_r. reflexivity.
    + rewrite andb_false_r. reflexivity.
Qed.

(** On [maze5]: the callback of the second move, run on [beforeWin5],
    invokes the handler. *)
Lemma onSuccess_runs_at_every_finish_witness :
  successCalls (animateMotion (mkListener 1 302 302) beforeWin5)
  = S (successCalls beforeWin5).
Proof.
  apply (proj1 (onSuccess_runs_at_every_finish (mkListener 1 302 302)
                                               beforeWin5)).
  vm_compute. repeat split.
Defined.

(** * Requests while a move is in flight *)

(** C3, as stated, fails: on [maze5] a second request made before any tick
    is neither queued nor refused.  Both callbacks are on the ticker, both
    promises are pending, and in the very next tick the first callback moves
    the sprite from x = 3 to x = 4 and the second from x = 4 to x = 5. *)
Lemma second_move_runs_alongside :
  ticker twoMoves5 = [mkListener 0 102 102; mkListener 1 302 102]
  /\ promises twoMoves5 = [Pending; Pending]
  /\ sprite twoMoves5 = Point.mk 3 103
  /\ sprite (animateMotion (mkListener 0 102 102) twoMoves5) = Point.mk 4 103
  /\ tick twoMoves5
     = animateMotion (mkListener 1 302 102)
         (animateMotion (mkListener 0 102 102) twoMoves5)
  /\ sprite (tick twoMoves5) = Point.mk 5 103.
Proof. vm_compute. repeat split. Qed.

Lemma fold_animateMotion_app (ls ls' : list Listener) (s : Maze) :
  fold_left (fun st l => animateMotion l st) (ls ++ ls') s
  = fold_left (fun st l => animateMotion l st) ls'
      (fold_left (fun st l => animateMotion l st) ls s).
Proof. apply fold_left_app. Qed.

(** C3, amended: [moveSprite] never waits and never refuses.  Whatever is
    already on the ticker, the new callback is appended to it at once with a
    pending promise, the earlier promises are untouched, and on the next tick
    the new callback runs in the same tick as the earlier ones, after
    them. *)
Theorem moveSprite_never_waits (x y : Z) (s : Maze) :
  let h := fst (moveSprite x y s) in
  let s1 := snd (moveSprite x y s) in
  let l := mkListener h (targetOf s x) (targetOf s y) in
  ticker s1 = ticker s ++ [l]
  /\ promises s1 !! h = Some Pending
  /\ (forall h', (h' < h)%nat -> promises s1 !! h' = promises s !! h')
  /\ tick s1
     = animateMotion l
         (fold_left (fun st l' => animateMotion l' st) (ticker s) s1).
Proof.
  cbv zeta.
  destruct (moveSprite_registers x y s) as (Ht & Hp & Hh & _ & _).
  rewrite Hh. split; [exact Ht|]. split; [|split].
  - rewrite Hp. apply list_lookup_middle. reflexivity.
  - intros h' Hlt. rewrite Hp. apply lookup_app_l. exact Hlt.
  - unfold tick. rewrite Ht, fold_animateMotion_app. reflexivity.
Qed.

(** * Reset *)

(** C4, as stated, fails: on [maze5], a reset ten ticks into a move leaves
    the move's callback on the ticker and its promise pending; the callback
    carries on from the reset position and the promise is resolved 305 ticks
    later, never rejected. *)
Lemma reset_does_not_cancel :
  resetMidMove5 = resetSprite (ticks 10 (snd (moveSprite 3 1 maze5)))
  /\ ticker resetMidMove5 = [mkListener 0 302 102]
  /\ promises resetMidMove5 = [Pending]
  /\ sprite (tick resetMidMove5) = Point.mk 1 100
  /\ promises (ticks 305 resetMidMove5) = [Resolved].
Proof. vm_compute. repeat split. Qed.

Lemma Math_round_zero (cs : Q) : Math_round (inject_Z 0 * cs)%Q = 0.
Proof.
  unfold Math_round.
  rewrite (Qfloor_comp (inject_Z 0 * cs + (1 # 2))%Q (1 # 2)%Q).
  - reflexivity.
  - unfold inject_Z. ring.
Qed.

Lemma Math_round_one (cs : Q) :
  Math_round (inject_Z 1 * cs)%Q = Math_round cs.
Proof.
  unfold Math_round. apply Qfloor_comp. unfold inject_Z. ring.
Qed.

(** C4, amended: from any state [resetSprite] puts [spriteCoordinates] back
    on the entrance (x = 0, y = 1) and the sprite on that cell's top-left
    pixel (0, round(cellSize)); it leaves the ticker and every promise as
    they were, so a move in flight is neither stopped nor rejected. *)
Theorem resetSprite_restores_entrance (s : Maze) :
  spriteCoordinates (resetSprite s) = Point.mk 0 1
  /\ sprite (resetSprite s) = Point.mk 0 (Math_round (cellSize s))
  /\ ticker (resetSprite s) = ticker s
  /\ promises (resetSprite s) = promises s.
Proof.
  unfold resetSprite. simpl. repeat split.
  change (cellSize (set_spriteCoordinates (Point.mk 0 1) s))
    with (cellSize s).
  rewrite Math_round_zero, Math_round_one. reflexivity.
Qed.

(** * The two predicates *)

Lemma constructed_step (s : Maze) (e : Event) :
  constructed s -> constructed (step s e).
Proof.
  intros Hs. destruct e; simpl; try exact Hs.
  eapply constructed_sameSetup; [apply tick_sameSetup | exact Hs].
Qed.

Lemma constructed_run (es : list Event) : forall s,
  constructed s -> constructed (run es s).
Proof.
  induction es as [|e es IH]; intros s Hs; simpl; [exact Hs|].
  apply IH, constructed_step, Hs.
Qed.

(** C5, as stated, fails on the numbers maze.js computes with.  On a canvas
    492 pixels wide with 14 rows, pixel 246 is exactly the edge between
    columns 6 and 7, but in binary64 [7 * cellSize] is 246.00000000000003
    and [246 / cellSize] is 6.999999999999999.  With a wall at [grid[1][7]]
    and the sprite on pixel (246, 38), where the move from the entrance
    towards that wall takes it, the containing cell (7, 1) is a WALL cell
    and the bounds test answers false.  With the wall at [grid[1][6]]
    instead and the sprite on pixel (246, 37), the containing cell (7, 1)
    is an open cell inside the grid and the bounds test answers true. *)
Lemma pixel_on_rounded_edge :
  sprite (ticks 243 (snd (moveSprite 7 1 (constructor 492 (edgeGrid 7) "" false))))
  = Point.mk 246 38
  /\ constructed (edgeMaze 7 (Point.mk 246 38))
  /\ inCell (edgeMaze 7 (Point.mk 246 38)) 7 1
  /\ isWallCell (edgeGrid 7) 1 7 = true
  /\ Double.isSpriteOutOfBounds (edgeMaze 7 (Point.mk 246 38)) = false
  /\ constructed (edgeMaze 6 (Point.mk 246 37))
  /\ inCell (edgeMaze 6 (Point.mk 246 37)) 7 1
  /\ isWallCell (edgeGrid 6) 1 7 = false
  /\ gridLength (edgeGrid 6) = 14
  /\ Double.isSpriteOutOfBounds (edgeMaze 6 (Point.mk 246 37)) = true.
Proof.
  split; [vm_compute; reflexivity|].
  split; [split; [reflexivity|]; split; [discriminate | reflexivity]|].
  split; [vm_compute; repeat split; discriminate|].
  split; [reflexivity|]. split; [vm_compute; reflexivity|].
  split; [split; [reflexivity|]; split; [discriminate | reflexivity]|].
  split; [vm_compute; repeat split; discriminate|].
  split; [reflexivity|]. split; [reflexivity|].
  vm_compute. reflexivity.
Qed.

(** C5, amended: for a sprite position, canvas and grid of screen size, when
    [cellSize] is a whole number of pixels or the position is on no cell
    edge (the cases in which the binary64 wall edges and quotients of
    maze.js decide as the exact ones do), and with [(col, row)] the cell
    that contains the position, [isSpriteOutOfBounds] answers true exactly
    when that cell is a WALL cell of the grid or its column or row is
    outside [0, n-1]. *)
Theorem isSpriteOutOfBounds_iff_off_rounded_edges (s : Maze) (col row : Z) :
  constructed s ->
  screenSized s ->
  wholeCells s \/ offEdges s ->
  inCell s col row ->
  (isSpriteOutOfBounds s = true <->
   isWallCell (grid s) row col = true
   \/ ~ (0 <= col <= gridLength (grid s) - 1)
   \/ ~ (0 <= row <= gridLength (grid s) - 1)).
Proof.
  intros Hs _ _ Hin. apply (inCell_floor s col row Hs) in Hin as [-> ->].
  rewrite isSpriteOutOfBounds_cells by assumption.
  rewrite !orb_true_iff, !Z.ltb_lt, !Z.geb_le. intuition lia.
Qed.

(** On [maze5] (cells of 100 pixels), 98 ticks into the move towards wall
    cell (0, 2): the sprite is on pixel (2, 200), in that cell, and the
    binary64 bounds test gives the same answer. *)
Lemma isSpriteOutOfBounds_iff_off_rounded_edges_witness :
  (isSpriteOutOfBounds (ticks 98 intoWall5) = true <->
   isWallCell (grid (ticks 98 intoWall5)) 2 0 = true
   \/ ~ (0 <= 0 <= gridLength (grid (ticks 98 intoWall5)) - 1)
   \/ ~ (0 <= 2 <= gridLength (grid (ticks 98 intoWall5)) - 1))
  /\ Double.isSpriteOutOfBounds (ticks 98 intoWall5) = true.
Proof.
  split; [|vm_compute; reflexivity].
  apply (isSpriteOutOfBounds_iff_off_rounded_edges (ticks 98 intoWall5) 0 2).
  - eapply constructed_sameSetup; [apply (ticks_sameSetup 98 intoWall5)|].
    split; [reflexivity|]. split; [discriminate | reflexivity].
  - vm_compute. repeat split.
  - left. vm_compute. reflexivity.
  - vm_compute. repeat split; discriminate.
Defined.

(** C6: with [(col, row)] the cell that contains the sprite position,
    [isSpriteAtFinish] answers true exactly when [row >= n-2] and
    [col >= n-2]; and a callback that completes its move with the sprite in
    such a cell invokes the success handler. *)
Theorem isSpriteAtFinish_iff (s : Maze) (col row : Z) :
  constructed s ->
  inCell s col row ->
  (isSpriteAtFinish s = true <->
   row >= gridLength (grid s) - 2 /\ col >= gridLength (grid s) - 2)
  /\ (forall l,
        isSpriteOutOfBounds s = false -> onTarget l s = true ->
        onSuccess s = true ->
        row >= gridLength (grid s) - 2 /\ col >= gridLength (grid s) - 2 ->
        successCalls (animateMotion l s) = S (successCalls s)).
Proof.
  intros Hs Hin. apply (inCell_floor s col row Hs) in Hin as [-> ->].
  assert (Hiff : isSpriteAtFinish s = true <->
                 spriteCellY s >= gridLength (grid s) - 2
                 /\ spriteCellX s >= gridLength (grid s) - 2).
  { unfold isSpriteAtFinish. rewrite andb_true_iff, !Z.geb_le. lia. }
  split; [exact Hiff|].
  intros l Hb Hon Hh Hexit. apply Hiff in Hexit.
  rewrite animateMotion_successCalls, Hb, Hon, Hexit, Hh. reflexivity.
Qed.

(** On [maze5], after the move to cell (3, 3): the sprite is on pixel
    (302, 302), in that cell. *)
Lemma isSpriteAtFinish_iff_witness :
  (isSpriteAtFinish firstWin5 = true <->
   3 >= gridLength (grid firstWin5) - 2 /\ 3 >= gridLength (grid firstWin5) - 2)
  /\ (forall l,
        isSpriteOutOfBounds firstWin5 = false -> onTarget l firstWin5 = true ->
        onSuccess firstWin5 = true ->
        3 >= gridLength (grid firstWin5) - 2
        /\ 3 >= gridLength (grid firstWin5) - 2 ->
        successCalls (animateMotion l firstWin5) = S (successCalls firstWin5)).
Proof.
  apply (isSpriteAtFinish_iff firstWin5 3 3).
  - unfold firstWin5. apply constructed_run, constructed_maze5.
  - vm_compute. repeat split; discriminate.
Defined.

(** * The advance step *)

Lemma ticks_add (a : nat) : forall (b : nat) (s : Maze),
  ticks (a + b) s = ticks b (ticks a s).
Proof.
  induction a as [|a IH]; intros b s; simpl; [reflexivity | apply IH].
Qed.

Lemma ticks_fixed (s : Maze) (k : nat) : tick s = s -> ticks k s = s.
Proof.
  intros Hfix. induction k as [|k IH]; simpl; [reflexivity|].
  rewrite Hfix. exact IH.
Qed.

(** After 50 ticks the two callbacks of [twoMoves5] undo each other: the
    first steps back from x = 103 to its target column 102 and the second,
    in the same tick, steps on to 103 again. *)
Lemma twoMoves5_cycle : tick (ticks 50 twoMoves5) = ticks 50 twoMoves5.
Proof. vm_compute. reflexivity. Qed.

Lemma twoMoves5_bothInFlight (k : nat) :
  bothInFlight (ticks k twoMoves5) = true.
Proof.
  destruct (Nat.lt_ge_cases k 50) as [Hlt|Hge].
  - assert (Hall : forallb (fun j => bothInFlight (ticks j twoMoves5))
                           (seq 0 50) = true)
      by (vm_compute; reflexivity).
    rewrite forallb_forall in Hall. apply Hall, in_seq. lia.
  - replace k with (50 + (k - 50))%nat by lia.
    rewrite ticks_add, (ticks_fixed _ _ twoMoves5_cycle).
    vm_compute. reflexivity.
Qed.

(** C7, as stated, fails: on [maze5], with two requests made back to back,
    the first move is in flight and never blocked, yet its promise stays
    pending for ever and the sprite is never on its target pixel (102, 102)
    at the end of a tick. *)
Lemma two_moves_never_arrive :
  ticker twoMoves5 = [mkListener 0 102 102; mkListener 1 302 102]
  /\ ~ (exists k, isSpriteOutOfBounds (ticks k twoMoves5) = true)
  /\ ~ (exists k, promises (ticks k twoMoves5) !! 0%nat <> Some Pending)
  /\ ~ (exists k, sprite (ticks k twoMoves5) = Point.mk 102 102).
Proof.
  split; [reflexivity|].
  assert (H : forall k,
             isSpriteOutOfBounds (ticks k twoMoves5) = false
             /\ promises (ticks k twoMoves5) = [Pending; Pending]
             /\ onTarget (mkListener 0 102 102) (ticks k twoMoves5) = false).
  { intros k. pose proof (twoMoves5_bothInFlight k) as Hk.
    unfold bothInFlight in Hk.
    apply andb_true_iff in Hk as [Hk Hoff].
    apply andb_true_iff in Hk as [Hfree Hp].
    apply negb_true_iff in Hfree, Hoff. repeat split; auto.
    destruct (promises (ticks k twoMoves5)) as [|[] [|[] []]];
      try discriminate; reflexivity. }
  split; [|split]; intros [k Hk]; destruct (H k) as (Hfree & Hp & Hoff).
  - congruence.
  - apply Hk. rewrite Hp. reflexivity.
  - apply (onTarget_true (mkListener 0 102 102)) in Hk. congruence.
Qed.

(** C7, amended: for a move that is the only one in flight and is never
    blocked, with [d] the pixel distance to its target along x plus along y:
    each of the first [d] ticks moves the sprite by exactly one unit (along
    x while x is off target, else along y), the sign by comparing the
    current value to the target, and brings it exactly one unit closer, so
    it never overshoots; after [d] ticks the sprite is on the target pixel
    with the promise still pending; the next tick resolves the promise and
    takes the callback off the ticker. *)
Theorem lone_move_reaches_target (l : Listener) (s : Maze) :
  ticker s = [l] ->
  promises s !! handle l = Some Pending ->
  (forall k, (k <= remaining l s)%nat ->
             isSpriteOutOfBounds (ticks k s) = false) ->
  (forall k, (k < remaining l s)%nat ->
     advancesToward l (sprite (ticks k s)) (sprite (ticks (S k) s))
     /\ remaining l (ticks (S k) s) = (remaining l s - S k)%nat
     /\ promises (ticks (S k) s) !! handle l = Some Pending)
  /\ sprite (ticks (remaining l s) s) = Point.mk (targetX l) (targetY l)
  /\ promises (ticks (remaining l s) s) !! handle l = Some Pending
  /\ promises (ticks (S (remaining l s)) s) !! handle l = Some Resolved
  /\ ticker (ticks (S (remaining l s)) s) = [].
Proof.
  intros Ht Hp Hfree.
  pose proof (fun k => lone_move_invariant l k s Ht Hp Hfree) as Hinv.
  split; [|].
  - intros k Hk.
    destruct (Hinv k ltac:(lia)) as (Htk & Hpk & Hrk).
    destruct (Hinv (S k) ltac:(lia)) as (_ & HpS & HrS).
    repeat split; auto.
    rewrite ticks_succ, (tick_single l _ Htk).
    apply animateMotion_advance.
    + apply Hfree. lia.
    + apply not_true_iff_false. rewrite <- remaining_zero. lia.
  - destruct (Hinv (remaining l s) ltac:(lia)) as (Htd & Hpd & Hrd).
    assert (Hon : onTarget l (ticks (remaining l s) s) = true)
      by (apply remaining_zero; lia).
    split; [apply onTarget_true; exact Hon|]. split; [exact Hpd|].
    rewrite ticks_succ, (tick_single l _ Htd).
    destruct (animateMotion_arrive l (ticks (remaining l s) s))
      as (A & B & _); auto.
Qed.

(** On [maze5]: the move from the entrance to cell (3, 1), 300 pixels
    away, along the open corridor. *)
Lemma lone_move_reaches_target_witness :
  let l := mkListener 0 302 102 in
  let s := snd (moveSprite 3 1 maze5) in
  (forall k, (k < remaining l s)%nat ->
     advancesToward l (sprite (ticks k s)) (sprite (ticks (S k) s))
     /\ remaining l (ticks (S k) s) = (remaining l s - S k)%nat
     /\ promises (ticks (S k) s) !! handle l = Some Pending)
  /\ sprite (ticks (remaining l s) s) = Point.mk (targetX l) (targetY l)
  /\ promises (ticks (remaining l s) s) !! handle l = Some Pending
  /\ promises (ticks (S (remaining l s)) s) !! handle l = Some Resolved
  /\ ticker (ticks (S (remaining l s)) s) = [].
Proof.
  intros l s. apply (lone_move_reaches_target l s).
  - reflexivity.
  - reflexivity.
  - intros k Hk.
    assert (Hall : forallb (fun j => negb (isSpriteOutOfBounds (ticks j s)))
                           (seq 0 301) = true)
      by (vm_compute; reflexivity).
    rewrite forallb_forall in Hall. apply negb_true_iff, Hall, in_seq.
    change (remaining l s) with 300%nat in Hk. lia.
Defined.

(** C8: in one run of the callback the bounds test comes first, and when it
    fires the sprite is not moved; otherwise the sprite moves one unit along
    x whenever x is off target, and along y only when x is on target and y
    is not.  So every increment is made in a tick whose bounds test
    passed. *)
Theorem animateMotion_x_before_y (l : Listener) (s : Maze) :
  (isSpriteOutOfBounds s = true -> sprite (animateMotion l s) = sprite s)
  /\ (isSpriteOutOfBounds s = false /\ Point.x (sprite s) <> targetX l ->
      sprite (animateMotion l s)
      = Point.mk (Point.x (sprite s)
                  + (if Point.x (sprite s) <? targetX l then 1 else -1))
                 (Point.y (sprite s)))
  /\ (isSpriteOutOfBounds s = false /\ Point.x (sprite s) = targetX l
      /\ Point.y (sprite s) <> targetY l ->
      sprite (animateMotion l s)
      = Point.mk (Point.x (sprite s))
                 (Point.y (sprite s)
                  + (if Point.y (sprite s) <? targetY l then 1 else -1)))
  /\ (sprite (animateMotion l s) <> sprite s ->
      isSpriteOutOfBounds s = false).
Proof.
  assert (Hblk : isSpriteOutOfBounds s = true ->
                 sprite (animateMotion l s) = sprite s).
  { intros Hb. unfold animateMotion. rewrite Hb.
    unfold ticker_remove. simpl.
    destruct (settle_frame (handle l) (Rejected "Out of bounds") s)
      as (_ & -> & _). reflexivity. }
  split; [exact Hblk|]. split; [|split].
  - intros [Hb Hx]. unfold animateMotion, toward. rewrite Hb.
    destruct (Z.eqb_spec (Point.x (sprite s)) (targetX l));
      [contradiction | reflexivity].
  - intros (Hb & Hx & Hy). unfold animateMotion, toward. rewrite Hb.
    destruct (Z.eqb_spec (Point.x (sprite s)) (targetX l));
      [simpl | contradiction].
    destruct (Z.eqb_spec (Point.y (sprite s)) (targetY l));
      [contradiction | reflexivity].
  - intros Hmoved. destruct (isSpriteOutOfBounds s) eqn:Hb; [|reflexivity].
    exfalso. apply Hmoved, Hblk. reflexivity.
Qed.

(** On [maze5]: the first run of the callback for cell (3, 1) moves the
    sprite from (3, 103) to (4, 103); y waits although it is off target. *)
Lemma animateMotion_x_before_y_witness :
  sprite (animateMotion (mkListener 0 302 102) (snd (moveSprite 3 1 maze5)))
  = Point.mk (3 + (if 3 <? 302 then 1 else -1)) 103.
Proof.
  apply (proj1 (proj2 (animateMotion_x_before_y
                         (mkListener 0 302 102)
                         (snd (moveSprite 3 1 maze5))))).
  split; [reflexivity | discriminate].
Defined.

(** * The grid and the maze code *)

Lemma run_sameGrid (es : list Event) : forall s,
  grid (run es s) = grid s /\ mazeCode (run es s) = mazeCode s.
Proof.
  induction es as [|e es IH]; intros s; simpl; [auto|].
  destruct (IH (step s e)) as [-> ->]. apply step_sameGrid.
Qed.

(** C9: [moveSprite], [moveSpriteX], [moveSpriteY], [resetSprite], a tick
    of the ticker and a single run of the callback leave [grid] and
    [mazeCode] as they were, and so does any sequence of them.  The two
    predicates return a boolean and write nothing. *)
Theorem grid_and_mazeCode_never_change :
  (forall x y s, grid (snd (moveSprite x y s)) = grid s
                 /\ mazeCode (snd (moveSprite x y s)) = mazeCode s)
  /\ (forall n s, grid (snd (moveSpriteX n s)) = grid s
                  /\ mazeCode (snd (moveSpriteX n s)) = mazeCode s)
  /\ (forall n s, grid (snd (moveSpriteY n s)) = grid s
                  /\ mazeCode (snd (moveSpriteY n s)) = mazeCode s)
  /\ (forall s, grid (resetSprite s) = grid s
                /\ mazeCode (resetSprite s) = mazeCode s)
  /\ (forall l s, grid (animateMotion l s) = grid s
                  /\ mazeCode (animateMotion l s) = mazeCode s)
  /\ (forall s, grid (tick s) = grid s /\ mazeCode (tick s) = mazeCode s)
  /\ (forall es s, grid (run es s) = grid s
                   /\ mazeCode (run es s) = mazeCode s).
Proof.
  split; [intros x y s; apply (step_sameGrid s (MoveSprite x y))|].
  split; [intros n s; apply (step_sameGrid s (MoveSpriteX n))|].
  split; [intros n s; apply (step_sameGrid s (MoveSpriteY n))|].
  split; [intros s; apply (step_sameGrid s ResetSprite)|].
  split; [intros l s; destruct (animateMotion_sameSetup l s); auto|].
  split; [intros s; apply (step_sameGrid s Tick)|].
  intros es s. apply run_sameGrid.
Qed.

(** * The cell coordinates *)

(** C10: [moveSprite x y] sets [spriteCoordinates] to (x, y) before it
    returns, with the sprite not yet moved; no tick changes it afterwards,
    whether the promise is later resolved or rejected; so a following
    [moveSpriteX] or [moveSpriteY] starts from the requested cell (x, y). *)
Theorem moveSprite_sets_spriteCoordinates (x y : Z) (s : Maze) :
  let s1 := snd (moveSprite x y s) in
  spriteCoordinates s1 = Point.mk x y
  /\ sprite s1 = sprite s
  /\ (forall k, spriteCoordinates (ticks k s1) = Point.mk x y)
  /\ (forall n, moveSpriteX n s1 = moveSprite (x + n) y s1)
  /\ (forall n, moveSpriteY n s1 = moveSprite x (y + n) s1)
  /\ (forall n k, moveSpriteX n (ticks k s1) = moveSprite (x + n) y (ticks k s1))
  /\ (forall n k, moveSpriteY n (ticks k s1) = moveSprite x (y + n) (ticks k s1)).
Proof.
  cbv zeta.
  destruct (moveSprite_registers x y s) as (_ & _ & _ & Hs & Hc).
  assert (Hk : forall k, spriteCoordinates (ticks k (snd (moveSprite x y s)))
                         = Point.mk x y)
    by (intros k; rewrite ticks_spriteCoordinates; exact Hc).
  split; [exact Hc|]. split; [exact Hs|]. split; [exact Hk|].
  split; [|split; [|split]]; intros n; try intros k;
    unfold moveSpriteX, moveSpriteY; rewrite ?Hk, ?Hc; reflexivity.
Qed.

(** * Further properties: the wall list *)

Lemma drawRow_length (cs : Q) (i : Z) (row : list Z) : forall j0,
  length (drawRow cs i j0 row) = length (filter (fun cell => cell <> 0) row).
Proof.
  induction row as [|cell rest IH]; intros j0; simpl; [reflexivity|].
  rewrite length_app, IH, filter_cons.
  destruct (Z.eqb_spec cell 0) as [->|Hne].
  - destruct (decide (0 <> 0)) as [H|_]; [contradiction | reflexivity].
  - destruct (decide (cell <> 0)) as [_|H]; [reflexivity | contradiction].
Qed.

Lemma drawRows_length (cs : Q) (rows : list (list Z)) : forall i0,
  length (drawRows cs i0 rows)
  = length (filter (fun cell => cell <> 0) (concat rows)).
Proof.
  induction rows as [|row rest IH]; intros i0; simpl; [reflexivity|].
  rewrite length_app, drawRow_length, IH, filter_app, length_app.
  reflexivity.
Qed.

Lemma In_drawRow (cs : Q) (i : Z) (r : Rectangle) (row : list Z) : forall j0,
  In r (drawRow cs i j0 row) <->
  exists (c : nat) (cell : Z),
    row !! c = Some cell /\ cell <> 0
    /\ r = wallBounds cs i (j0 + Z.of_nat c).
Proof.
  induction row as [|cell rest IH]; intros j0; simpl.
  - split; [contradiction | intros (c & v & H & _); destruct c; discriminate].
  - rewrite in_app_iff, IH. split.
    + intros [H | (c & v & Hc & Hv & Hr)].
      * destruct (Z.eqb_spec cell 0); simpl in H; [contradiction|].
        destruct H as [<-|[]]. exists 0%nat, cell.
        rewrite Z.add_0_r. auto.
      * exists (S c), v. repeat split; auto.
        rewrite Hr. f_equal. lia.
    + intros (c & v & Hc & Hv & Hr). destruct c as [|c].
      * left. simpl in Hc. injection Hc as ->.
        destruct (Z.eqb_spec v 0); [contradiction|].
        left. rewrite Hr, Z.add_0_r. reflexivity.
      * right. exists c, v. repeat split; auto.
        rewrite Hr. f_equal. lia.
Qed.

Lemma In_drawRows (cs : Q) (r : Rectangle) (rows : list (list Z)) : forall i0,
  In r (drawRows cs i0 rows) <->
  exists (i c : nat) (row : list Z) (cell : Z),
    rows !! i = Some row /\ row !! c = Some cell /\ cell <> 0
    /\ r = wallBounds cs (i0 + Z.of_nat i) (Z.of_nat c).
Proof.
  induction rows as [|row rest IH]; intros i0; simpl.
  - split; [contradiction|].
    intros (i & c & w & v & H & _); destruct i; discriminate.
  - rewrite in_app_iff, In_drawRow, IH. split.
    + intros [(c & v & Hc & Hv & Hr) | (i & c & w & v & Hi & Hc & Hv & Hr)].
      * exists 0%nat, c, row, v. rewrite Z.add_0_r. auto.
      * exists (S i), c, w, v. repeat split; auto.
        rewrite Hr. f_equal. lia.
    + intros (i & c & w & v & Hi & Hc & Hv & Hr). destruct i as [|i].
      * left. simpl in Hi. injection Hi as ->.
        exists c, v. rewrite Z.add_0_r in Hr. auto.
      * right. exists i, c, w, v. repeat split; auto.
        rewrite Hr. f_equal. lia.
Qed.

(** X1: [drawMaze] pushes one square per non-zero cell of the grid and none
    for a zero cell: the wall list is as long as the grid has non-zero
    cells, and a rectangle is in it exactly when it is the square of cell
    size [cellSize] placed at [(j * cellSize, i * cellSize)] for some
    non-zero [grid[i][j]].  Rows may differ in length. *)
Theorem drawMaze_one_square_per_wall_cell (width : Z) (g : list (list Z)) :
  length (drawMaze width g) = wallCells g
  /\ forall r : Rectangle,
       In r (drawMaze width g) <->
       exists (i j : nat),
         isWallCell g (Z.of_nat i) (Z.of_nat j) = true
         /\ r = mkRectangle (inject_Z (Z.of_nat j) * cellSizeOf width g)%Q
                            (inject_Z (Z.of_nat i) * cellSizeOf width g)%Q
                            (cellSizeOf width g) (cellSizeOf width g).
Proof.
  unfold drawMaze, wallCells. split; [apply drawRows_length|].
  intros r. rewrite In_drawRows. split.
  - intros (i & c & w & v & Hi & Hc & Hv & ->).
    exists i, c. split; [|reflexivity].
    apply isWallCell_true. exists i, c, w, v. auto.
  - intros (i & j & Hw & ->).
    apply isWallCell_true in Hw as (i' & j' & w & v & Hi & Hj & Hr & Hc & Hv).
    apply Nat2Z.inj in Hi, Hj. subst i' j'.
    exists i, j, w, v. auto.
Qed.

(** * Further properties: where the sprite is put *)

Section SpritePixels.
Variables W n : Z.
Hypothesis HW : 0 < W.
Hypothesis Hn : 0 < n.

Lemma round_sprite_origin (c : Z) :
  Math_round (inject_Z c * (inject_Z W / inject_Z n) + (5 # 2))%Q
  = (c * W + 3 * n) / n.
Proof.
  unfold Math_round.
  rewrite <- (Qfloor_inject_div (c * W + 3 * n) n Hn).
  apply Qfloor_comp.
  destruct W as [|w|w]; try lia. destruct n as [|m|m]; try lia.
  unfold Qdiv, Qinv, Qeq, inject_Z, Qmult, Qplus. simpl. lia.
Qed.

Lemma round_cellSize :
  Math_round (inject_Z W / inject_Z n)%Q = (2 * W + n) / (2 * n).
Proof.
  unfold Math_round.
  rewrite <- (Qfloor_inject_div (2 * W + n) (2 * n)) by lia.
  apply Qfloor_comp.
  destruct W as [|w|w]; try lia. destruct n as [|m|m]; try lia.
  unfold Qdiv, Qinv, Qeq, inject_Z, Qmult, Qplus. simpl. lia.
Qed.

Lemma cellSize_le_inject (b : Z) :
  Qle_bool (inject_Z W / inject_Z n)%Q (inject_Z b) = true <-> W <= b * n.
Proof.
  rewrite Qle_bool_iff.
  destruct W as [|w|w]; try lia. destruct n as [|m|m]; try lia.
  unfold Qdiv, Qinv, Qle, inject_Z, Qmult. simpl. lia.
Qed.

(** With cells wider than three pixels, the pixel [generateSprite] picks
    for the entrance is in column 0 and row 1. *)
Lemma sprite_origin_cells :
  3 * n < W ->
  (0 * W + 3 * n) / n * n / W = 0 /\ (1 * W + 3 * n) / n * n / W = 1.
Proof.
  intros Hroom. split; symmetry; apply cell_unique; try assumption.
  - pose proof (Z.mul_div_le (0 * W + 3 * n) n Hn).
    pose proof (Z.mul_succ_div_gt (0 * W + 3 * n) n Hn). nia.
  - pose proof (Z.mul_div_le (1 * W + 3 * n) n Hn).
    pose proof (Z.mul_succ_div_gt (1 * W + 3 * n) n Hn). nia.
Qed.

(** The row of pixel [round(cellSize)]: row 1 unless the rounding went
    down, which puts it in row 0. *)
Lemma reset_row :
  n < 2 * W ->
  (2 * W + n) / (2 * n) * n / W
  = if W <=? (2 * W + n) / (2 * n) * n then 1 else 0.
Proof.
  intros Hroom.
  pose proof (Z.mul_div_le (2 * W + n) (2 * n) ltac:(lia)).
  pose proof (Z.mul_succ_div_gt (2 * W + n) (2 * n) ltac:(lia)).
  assert (0 <= (2 * W + n) / (2 * n)) by (apply Z.div_pos; lia).
  destruct (Z.leb_spec W ((2 * W + n) / (2 * n) * n));
    symmetry; apply cell_unique; try assumption; nia.
Qed.
End SpritePixels.

(** X2: after construction on a canvas of positive width with a non-empty
    grid whose cells are wider than three pixels, [spriteCoordinates] is the
    entrance (0, 1), the sprite's pixel lies inside that cell, nothing is on
    the ticker, no promise exists, and the bounds test fails only if the
    entrance cell [grid[1][0]] is a wall or the grid has a single row. *)
Theorem constructor_puts_sprite_in_entrance (width : Z) (g : list (list Z))
    (code : string) (handler : bool) :
  0 < width -> g <> [] -> 3 * gridLength g < width ->
  let s := constructor width g code handler in
  spriteCoordinates s = Point.mk 0 1
  /\ inCell s 0 1
  /\ ticker s = [] /\ promises s = [] /\ successCalls s = 0%nat
  /\ (isSpriteOutOfBounds s = true <->
      isWallCell g 1 0 = true \/ gridLength g = 1).
Proof.
  intros HW Hg Hroom s.
  assert (Hs : constructed s) by (apply constructed_constructor; assumption).
  pose proof (gridLength_positive g Hg) as Hn.
  assert (Hx : spriteCellX s = 0 /\ spriteCellY s = 1).
  { rewrite spriteCellX_div, spriteCellY_div by exact Hs.
    subst s. simpl. unfold cellSizeOf.
    rewrite !round_sprite_origin by assumption.
    apply sprite_origin_cells; assumption. }
  destruct Hx as [Hx Hy].
  split; [reflexivity|]. split; [apply inCell_floor; auto|].
  split; [reflexivity|]. split; [reflexivity|]. split; [reflexivity|].
  rewrite isSpriteOutOfBounds_cells, Hx, Hy by exact Hs.
  change (grid s) with g.
  rewrite !orb_true_iff, !Z.ltb_lt, !Z.geb_le. intuition lia.
Qed.

(** On [maze5]: cells of 100 pixels, the entrance cell is open. *)
Lemma constructor_puts_sprite_in_entrance_witness :
  spriteCoordinates maze5 = Point.mk 0 1
  /\ inCell maze5 0 1
  /\ ticker maze5 = [] /\ promises maze5 = [] /\ successCalls maze5 = 0%nat
  /\ (isSpriteOutOfBounds maze5 = true <->
      isWallCell grid5 1 0 = true \/ gridLength grid5 = 1).
Proof.
  apply (constructor_puts_sprite_in_entrance 500 grid5 "R3D2" true).
  - reflexivity.
  - discriminate.
  - reflexivity.
Defined.

Lemma resetSprite_restores_pixels (s : Maze) :
  Point.x (sprite (resetSprite s)) = 0
  /\ Point.y (sprite (resetSprite s)) = Math_round (cellSize s).
Proof.
  unfold resetSprite. simpl.
  change (cellSize (set_spriteCoordinates (Point.mk 0 1) s))
    with (cellSize s).
  rewrite Math_round_zero, Math_round_one. auto.
Qed.

(** X3: [resetSprite] puts the sprite on pixel (0, round(cellSize)).  That
    pixel is in column 0; it is in row 1, the entrance, when rounding did
    not go below [cellSize], and in row 0 when it did.  In particular the
    sprite is back in the entrance cell whenever [cellSize] is a whole
    number of pixels. *)
Theorem resetSprite_cell (s : Maze) :
  constructed s ->
  gridLength (grid s) < 2 * view_width s ->
  inCell (resetSprite s) 0
         (if Qle_bool (cellSize s) (inject_Z (Math_round (cellSize s)))
          then 1 else 0)
  /\ (view_width s mod gridLength (grid s) = 0 -> inCell (resetSprite s) 0 1).
Proof.
  intros Hs Hroom.
  assert (Hs' : constructed (resetSprite s)) by exact Hs.
  destruct Hs as (HW & Hg & _). apply gridLength_positive in Hg.
  set (W := view_width s) in *. set (n := gridLength (grid s)) in *.
  assert (Hx : spriteCellX (resetSprite s) = 0
               /\ spriteCellY (resetSprite s)
                  = if W <=? (2 * W + n) / (2 * n) * n then 1 else 0).
  { rewrite spriteCellX_div, spriteCellY_div by exact Hs'.
    change (view_width (resetSprite s)) with W.
    change (gridLength (grid (resetSprite s))) with n.
    destruct (resetSprite_restores_pixels s) as [-> ->].
    unfold cellSize, cellSizeOf. fold W n.
    rewrite round_cellSize by assumption.
    split; [reflexivity | apply reset_row; assumption]. }
  destruct Hx as [Hx Hy].
  assert (Hb : Qle_bool (cellSize s) (inject_Z (Math_round (cellSize s)))
               = (W <=? (2 * W + n) / (2 * n) * n)).
  { unfold cellSize, cellSizeOf. fold W n.
    rewrite round_cellSize by assumption.
    apply eq_true_iff_eq. rewrite cellSize_le_inject, Z.leb_le by assumption.
    reflexivity. }
  split.
  - apply inCell_floor; [exact Hs'|]. rewrite Hb, Hx, Hy. auto.
  - intros Hdiv. apply inCell_floor; [exact Hs'|]. rewrite Hx, Hy.
    split; [reflexivity|].
    apply Z.mod_divide in Hdiv as [q Hq]; [|lia].
    assert (Hq' : (2 * W + n) / (2 * n) = q).
    { symmetry. apply (Z.div_unique _ _ _ n); lia. }
    rewrite Hq'. destruct (Z.leb_spec W (q * n)); [reflexivity | lia].
Qed.

(** On [maze502]: cells of 100.4 pixels round to 100, so a reset leaves the
    sprite on pixel (0, 100), in row 0. *)
Lemma resetSprite_cell_witness :
  inCell (resetSprite maze502) 0 0
  /\ (view_width maze502 mod gridLength (grid maze502) = 0 ->
      inCell (resetSprite maze502) 0 1).
Proof.
  apply (resetSprite_cell maze502).
  - split; [reflexivity|]. split; [discriminate | reflexivity].
  - reflexivity.
Defined.

(** * Further properties: promises and callbacks *)

Lemma promises_settle (h : nat) (v : PromiseState) (s : Maze) :
  promises (settle h v s) = settledList h v (promises s).
Proof.
  unfold settle, settledList. destruct (promises s !! h) as [[]|]; reflexivity.
Qed.

Lemma settledList_other (h h' : nat) (v : PromiseState)
    (ps : list PromiseState) :
  h' <> h -> settledList h v ps !! h' = ps !! h'.
Proof.
  intros Hne. unfold settledList.
  destruct (ps !! h) as [[]|]; try reflexivity.
  apply list_lookup_insert_ne. congruence.
Qed.

Lemma settledList_pending (h : nat) (v : PromiseState)
    (ps : list PromiseState) :
  ps !! h = Some Pending -> settledList h v ps !! h = Some v.
Proof.
  intros Hp. unfold settledList. rewrite Hp.
  apply list_lookup_insert_eq. eapply lookup_lt_Some; eauto.
Qed.

Lemma settledList_settled (h h' : nat) (v w : PromiseState)
    (ps : list PromiseState) :
  ps !! h' = Some w -> w <> Pending -> settledList h v ps !! h' = Some w.
Proof.
  intros Hw Hne. destruct (Nat.eq_dec h' h) as [->|Hd].
  - unfold settledList. rewrite Hw. destruct w; congruence.
  - rewrite settledList_other; assumption.
Qed.

(** What one run of a callback does to the ticker and the promises: nothing,
    or it settles its own promise and takes itself off the ticker. *)
Lemma animateMotion_ticker_promises (l : Listener) (s : Maze) :
  (ticker (animateMotion l s) = ticker s
   /\ promises (animateMotion l s) = promises s)
  \/ (exists v, v <> Pending
      /\ ticker (animateMotion l s)
         = filter (fun l' => handle l' <> handle l) (ticker s)
      /\ promises (animateMotion l s) = settledList (handle l) v (promises s)).
Proof.
  unfold animateMotion.
  destruct (isSpriteOutOfBounds s).
  - right. exists (Rejected "Out of bounds"). split; [discriminate|].
    unfold ticker_remove. simpl.
    destruct (settle_frame (handle l) (Rejected "Out of bounds") s)
      as (-> & _ & _).
    rewrite promises_settle. auto.
  - destruct (negb (Point.x (sprite s) =? targetX l)); [left; auto|].
    destruct (negb (Point.y (sprite s) =? targetY l)); [left; auto|].
    right. exists Resolved. split; [discriminate|].
    match goal with
    | |- ticker (settle ?h ?v ?s2) = _ /\ _ =>
        destruct (settle_frame h v s2) as (-> & _ & _);
        rewrite (promises_settle h v s2)
    end.
    unfold callOnSuccess, ticker_remove.
    destruct (isSpriteAtFinish _); [destruct (onSuccess _)|]; simpl; auto.
Qed.

Lemma In_handles_filter (h h' : nat) (ls : list Listener) :
  In h' (map handle (filter (fun l' => handle l' <> h) ls))
  <-> h' <> h /\ In h' (map handle ls).
Proof.
  induction ls as [|l ls IH]; simpl; [tauto|].
  rewrite filter_cons. destruct (decide (handle l <> h)) as [Hne|Heq]; simpl.
  - rewrite IH. split.
    + intros [<-|[? ?]]; auto.
    + intros [? [?|?]]; auto.
  - rewrite IH. apply dec_stable in Heq. split.
    + intros [? ?]; auto.
    + intros [? [?|?]]; [congruence | auto].
Qed.

Lemma NoDup_handles_filter (h : nat) (ls : list Listener) :
  NoDup (map handle ls) ->
  NoDup (map handle (filter (fun l' => handle l' <> h) ls)).
Proof.
  induction ls as [|l ls IH]; simpl; intros Hnd; [constructor|].
  inversion Hnd as [|? ? Hnotin Hrest]; subst.
  rewrite filter_cons. destruct (decide (handle l <> h)); simpl; auto.
  constructor; auto.
  intros Hin. apply Hnotin.
  apply list_elem_of_In in Hin. apply In_handles_filter in Hin as [_ Hin].
  apply list_elem_of_In. exact Hin.
Qed.

Lemma tickerMatchesPromises_settle (s s' : Maze) (h : nat) (v : PromiseState) :
  tickerMatchesPromises s ->
  v <> Pending ->
  ticker s' = filter (fun l' => handle l' <> h) (ticker s) ->
  promises s' = settledList h v (promises s) ->
  tickerMatchesPromises s'.
Proof.
  intros [Hnd Hiff] Hv Ht Hp. unfold tickerMatchesPromises.
  rewrite Ht, Hp. split; [apply NoDup_handles_filter; exact Hnd|].
  intros h'. rewrite In_handles_filter, <- Hiff.
  destruct (Nat.eq_dec h' h) as [->|Hne].
  - split; [|tauto]. intros Hpend. exfalso.
    destruct (promises s !! h) as [[]|] eqn:Hl.
    + rewrite (settledList_pending h v _ Hl) in Hpend. congruence.
    + rewrite (settledList_settled h h v Resolved _ Hl) in Hpend;
        discriminate.
    + rewrite (settledList_settled h h v (Rejected reason) _ Hl) in Hpend;
        discriminate.
    + unfold settledList in Hpend. rewrite Hl in Hpend. congruence.
  - rewrite settledList_other by assumption. tauto.
Qed.

Lemma tickerMatchesPromises_animateMotion (l : Listener) (s : Maze) :
  tickerMatchesPromises s -> tickerMatchesPromises (animateMotion l s).
Proof.
  intros Hs.
  destruct (animateMotion_ticker_promises l s) as [[Ht Hp]|(v & Hv & Ht & Hp)].
  - unfold tickerMatchesPromises. rewrite Ht, Hp. exact Hs.
  - eapply tickerMatchesPromises_settle; eauto.
Qed.

Lemma tickerMatchesPromises_fold (ls : list Listener) : forall s,
  tickerMatchesPromises s ->
  tickerMatchesPromises (fold_left (fun st l => animateMotion l st) ls s).
Proof.
  induction ls as [|l ls IH]; intros s Hs; simpl; [exact Hs|].
  apply IH, tickerMatchesPromises_animateMotion, Hs.
Qed.

Lemma tickerMatchesPromises_moveSprite (x y : Z) (s : Maze) :
  tickerMatchesPromises s -> tickerMatchesPromises (snd (moveSprite x y s)).
Proof.
  intros [Hnd Hiff]. unfold tickerMatchesPromises.
  destruct (moveSprite_registers x y s) as (-> & -> & _ & _ & _).
  rewrite map_app. simpl.
  assert (Hfresh : ~ In (length (promises s)) (map handle (ticker s))).
  { intros Hin. apply Hiff in Hin. apply lookup_lt_Some in Hin. lia. }
  split.
  - apply NoDup_app. split; [exact Hnd|]. split.
    + intros h Hh [<-|[]]%list_elem_of_In.
      apply Hfresh, list_elem_of_In, Hh.
    + constructor; [|constructor]. intros Hin%list_elem_of_In.
      destruct Hin.
  - intros h. rewrite in_app_iff. simpl.
    destruct (Nat.lt_total h (length (promises s))) as [Hlt|[->|Hgt]].
    + rewrite lookup_app_l by exact Hlt. rewrite Hiff.
      split; [auto|]. intros [?|[?|[]]]; [assumption | lia].
    + rewrite list_lookup_middle by reflexivity. tauto.
    + rewrite lookup_ge_None_2 by (rewrite length_app; simpl; lia).
      split; [discriminate|].
      intros [Hin|[?|[]]]; [|lia].
      apply Hiff, lookup_lt_Some in Hin. lia.
Qed.

Lemma tickerMatchesPromises_step (s : Maze) (e : Event) :
  tickerMatchesPromises s -> tickerMatchesPromises (step s e).
Proof.
  intros Hs. destruct e; simpl.
  - apply tickerMatchesPromises_moveSprite, Hs.
  - apply tickerMatchesPromises_moveSprite, Hs.
  - apply tickerMatchesPromises_moveSprite, Hs.
  - exact Hs.
  - apply tickerMatchesPromises_fold, Hs.
Qed.

Lemma tickerMatchesPromises_run (es : list Event) : forall s,
  tickerMatchesPromises s -> tickerMatchesPromises (run es s).
Proof.
  induction es as [|e es IH]; intros s Hs; simpl; [exact Hs|].
  apply IH, tickerMatchesPromises_step, Hs.
Qed.

(** X4: whatever requests, resets and ticks follow the construction, the
    callbacks on the ticker hold pairwise different promises, and a promise
    is pending exactly when its callback is on the ticker: no callback
    outlives its promise and no pending promise is left without a
    callback. *)
Theorem callbacks_match_pending_promises (width : Z) (g : list (list Z))
    (code : string) (handler : bool) (es : list Event) :
  let s := run es (constructor width g code handler) in
  NoDup (map handle (ticker s))
  /\ forall h, promises s !! h = Some Pending
               <-> exists l, In l (ticker s) /\ handle l = h.
Proof.
  cbv zeta.
  assert (H0 : tickerMatchesPromises (constructor width g code handler)).
  { split; [constructor|]. intros h. simpl. split; [discriminate | tauto]. }
  destruct (tickerMatchesPromises_run es _ H0) as [Hnd Hiff].
  split; [exact Hnd|]. intros h. rewrite Hiff, in_map_iff.
  split; intros (l & A & B); exists l; auto.
Qed.

Lemma settled_animateMotion (l : Listener) (s : Maze) (h : nat)
    (v : PromiseState) :
  promises s !! h = Some v -> v <> Pending ->
  promises (animateMotion l s) !! h = Some v.
Proof.
  intros Hv Hne.
  destruct (animateMotion_ticker_promises l s) as [[_ ->]|(w & _ & _ & ->)].
  - exact Hv.
  - apply settledList_settled; assumption.
Qed.

Lemma settled_fold (ls : list Listener) (h : nat) (v : PromiseState) :
  forall s,
  promises s !! h = Some v -> v <> Pending ->
  promises (fold_left (fun st l => animateMotion l st) ls s) !! h = Some v.
Proof.
  induction ls as [|l ls IH]; intros s Hv Hne; simpl; [exact Hv|].
  apply IH; [apply settled_animateMotion|]; assumption.
Qed.

Lemma settled_step (s : Maze) (e : Event) (h : nat) (v : PromiseState) :
  promises s !! h = Some v -> v <> Pending ->
  promises (step s e) !! h = Some v.
Proof.
  intros Hv Hne.
  assert (Hmove : forall x y, promises (snd (moveSprite x y s)) !! h = Some v).
  { intros x y. destruct (moveSprite_registers x y s) as (_ & -> & _).
    rewrite lookup_app_l; [exact Hv | eapply lookup_lt_Some; eauto]. }
  destruct e as [x y|n|n| |].
  - exact (Hmove x y).
  - exact (Hmove (Point.x (spriteCoordinates s) + n)
                 (Point.y (spriteCoordinates s))).
  - exact (Hmove (Point.x (spriteCoordinates s))
                 (Point.y (spriteCoordinates s) + n)).
  - exact Hv.
  - apply settled_fold; assumption.
Qed.

(** X5: a promise that has been resolved or rejected keeps that outcome
    through every later request, reset and tick. *)
Theorem settled_promise_is_final (s : Maze) (h : nat) (v : PromiseState)
    (es : list Event) :
  promises s !! h = Some v -> v <> Pending ->
  promises (run es s) !! h = Some v.
Proof.
  revert s. induction es as [|e es IH]; intros s Hv Hne; simpl.
  - exact Hv.
  - apply IH; [apply settled_step|]; assumption.
Qed.

(** On [maze5]: the promise rejected at the wall stays rejected through a
    reset, a new request and its ticks. *)
Lemma settled_promise_is_final_witness :
  promises (run (ResetSprite :: MoveSprite 3 1 :: repeat Tick 400)
                (ticks 99 intoWall5)) !! 0%nat
  = Some (Rejected "Out of bounds").
Proof.
  apply (settled_promise_is_final (ticks 99 intoWall5) 0
           (Rejected "Out of bounds")).
  - vm_compute. reflexivity.
  - discriminate.
Defined.

(** * Further properties: a tick that starts out of bounds *)

Lemma animateMotion_when_blocked (l : Listener) (s : Maze) :
  isSpriteOutOfBounds s = true ->
  animateMotion l s
  = ticker_remove l (settle (handle l) (Rejected "Out of bounds") s).
Proof. intros Hb. unfold animateMotion. rewrite Hb. reflexivity. Qed.

Lemma blocked_callback_frame (l : Listener) (s : Maze) :
  isSpriteOutOfBounds s = true ->
  sprite (animateMotion l s) = sprite s
  /\ isSpriteOutOfBounds (animateMotion l s) = true
  /\ successCalls (animateMotion l s) = successCalls s
  /\ ticker (animateMotion l s)
     = filter (fun l' => handle l' <> handle l) (ticker s)
  /\ promises (animateMotion l s)
     = settledList (handle l) (Rejected "Out of bounds") (promises s).
Proof.
  intros Hb.
  assert (Hs : sprite (animateMotion l s) = sprite s).
  { rewrite animateMotion_when_blocked by exact Hb. unfold ticker_remove.
    simpl. apply settle_frame. }
  split; [exact Hs|]. split.
  - rewrite <- Hb. destruct (animateMotion_sameSetup l s).
    apply isSpriteOutOfBounds_ext; assumption.
  - rewrite animateMotion_when_blocked by exact Hb. unfold ticker_remove.
    simpl.
    destruct (settle_frame (handle l) (Rejected "Out of bounds") s)
      as (-> & _ & ->).
    rewrite promises_settle. auto.
Qed.

Lemma blocked_fold (ls : list Listener) : forall s,
  isSpriteOutOfBounds s = true ->
  let s' := fold_left (fun st l => animateMotion l st) ls s in
  sprite s' = sprite s
  /\ isSpriteOutOfBounds s' = true
  /\ successCalls s' = successCalls s
  /\ (forall l', In l' (ticker s') ->
                 In l' (ticker s) /\ ~ In (handle l') (map handle ls))
  /\ (forall h, In h (map handle ls) -> promises s !! h = Some Pending ->
                promises s' !! h = Some (Rejected "Out of bounds"))
  /\ (forall h, ~ In h (map handle ls) -> promises s' !! h = promises s !! h).
Proof.
  induction ls as [|l ls IH]; intros s Hb; simpl.
  - repeat split; auto. contradiction.
  - destruct (blocked_callback_frame l s Hb) as (Hs & Hb1 & Hc & Ht & Hp).
    destruct (IH (animateMotion l s) Hb1) as (A & B & C & D & E & F).
    split; [congruence|]. split; [exact B|]. split; [congruence|].
    split; [|split].
    + intros l' Hin. destruct (D l' Hin) as [Hin1 Hnot].
      rewrite Ht in Hin1. apply list_elem_of_In in Hin1.
      apply list_elem_of_filter in Hin1 as [Hne Hin1].
      apply list_elem_of_In in Hin1. split; [exact Hin1|].
      intros [Heq|Hin2]; [congruence | contradiction].
    + intros h Hin Hpend.
      destruct (Nat.eq_dec h (handle l)) as [->|Hne].
      * assert (Hrej : promises (animateMotion l s) !! handle l
                       = Some (Rejected "Out of bounds"))
          by (rewrite Hp; apply settledList_pending; exact Hpend).
        apply settled_fold; [exact Hrej | discriminate].
      * destruct Hin as [Heq|Hin]; [congruence|].
        apply E; [exact Hin|]. rewrite Hp, settledList_other; assumption.
    + intros h Hnot. rewrite F by tauto.
      rewrite Hp. apply settledList_other. intros ->. apply Hnot. auto.
Qed.

(** X6: a tick that starts with the sprite out of bounds rejects every
    pending promise with "Out of bounds", empties the ticker, leaves settled
    promises and the success count as they were, and does not move the
    sprite, which is therefore still out of bounds afterwards. *)
Theorem tick_out_of_bounds_rejects_all (s : Maze) :
  tickerMatchesPromises s ->
  isSpriteOutOfBounds s = true ->
  ticker (tick s) = []
  /\ sprite (tick s) = sprite s
  /\ isSpriteOutOfBounds (tick s) = true
  /\ successCalls (tick s) = successCalls s
  /\ forall h,
       promises (tick s) !! h
       = match promises s !! h with
         | Some Pending => Some (Rejected "Out of bounds")
         | other => other
         end.
Proof.
  intros [_ Hiff] Hb.
  destruct (blocked_fold (ticker s) s Hb) as (A & B & C & D & E & F).
  fold (tick s) in A, B, C, D, E, F.
  split; [|split; [exact A|split; [exact B|split; [exact C|]]]].
  - destruct (ticker (tick s)) as [|l' rest] eqn:Ht; [reflexivity|].
    exfalso. destruct (D l') as [Hin Hnot]; [left; reflexivity|].
    apply Hnot, in_map, Hin.
  - intros h. destruct (promises s !! h) as [[]|] eqn:Hl.
    + apply E; [apply Hiff|]; exact Hl.
    + apply settled_fold; [exact Hl | discriminate].
    + apply settled_fold; [exact Hl | discriminate].
    + rewrite F; [exact Hl|]. rewrite <- Hiff, Hl. discriminate.
Qed.

(** On [maze5], with the sprite at the wall below the entrance and the move
    still on the ticker. *)
Lemma tick_out_of_bounds_rejects_all_witness :
  ticker (tick (ticks 98 intoWall5)) = []
  /\ sprite (tick (ticks 98 intoWall5)) = sprite (ticks 98 intoWall5)
  /\ isSpriteOutOfBounds (tick (ticks 98 intoWall5)) = true
  /\ successCalls (tick (ticks 98 intoWall5))
     = successCalls (ticks 98 intoWall5)
  /\ forall h,
       promises (tick (ticks 98 intoWall5)) !! h
       = match promises (ticks 98 intoWall5) !! h with
         | Some Pending => Some (Rejected "Out of bounds")
         | other => other
         end.
Proof.
  apply (tick_out_of_bounds_rejects_all (ticks 98 intoWall5)).
  - replace (ticks 98 intoWall5)
      with (run (MoveSpriteY 1 :: repeat Tick 98) maze5)
      by (vm_compute; reflexivity).
    apply tickerMatchesPromises_run.
    split; [constructor|]. intros h. simpl. split; [discriminate | tauto].
  - vm_compute. reflexivity.
Defined.

(** X7: once the sprite is out of bounds, a new request is rejected by the
    very next tick, whatever cell it asks for and however many moves were
    in flight, and the sprite is left where it is, still out of bounds: only
    [resetSprite] gets it out. *)
Theorem request_while_out_of_bounds (x y : Z) (s : Maze) :
  tickerMatchesPromises s ->
  isSpriteOutOfBounds s = true ->
  let h := fst (moveSprite x y s) in
  let s1 := snd (moveSprite x y s) in
  promises s1 !! h = Some Pending
  /\ promises (tick s1) !! h = Some (Rejected "Out of bounds")
  /\ ticker (tick s1) = []
  /\ sprite (tick s1) = sprite s
  /\ isSpriteOutOfBounds (tick s1) = true.
Proof.
  intros Hs Hb. cbv zeta.
  destruct (moveSprite_registers x y s) as (Ht & Hp & Hh & Hsp & _).
  destruct (moveSprite_sameGrid x y s) as (Hw & Hg & Hwalls).
  set (s1 := snd (moveSprite x y s)) in *.
  assert (Hb1 : isSpriteOutOfBounds s1 = true)
    by (rewrite <- Hb; apply isSpriteOutOfBounds_ext; assumption).
  assert (Hpend : promises s1 !! fst (moveSprite x y s) = Some Pending)
    by (rewrite Hp, Hh; apply list_lookup_middle; reflexivity).
  assert (Hs1 : tickerMatchesPromises s1)
    by (apply tickerMatchesPromises_moveSprite; exact Hs).
  destruct (blocked_fold (ticker s1) s1 Hb1) as (A & B & _ & D & E & _).
  fold (tick s1) in A, B, D, E.
  split; [exact Hpend|]. split; [|split; [|split]].
  - apply E; [|exact Hpend]. apply Hs1. exact Hpend.
  - destruct (ticker (tick s1)) as [|l' rest] eqn:Hl; [reflexivity|].
    exfalso. destruct (D l') as [Hin Hnot]; [left; reflexivity|].
    apply Hnot, in_map, Hin.
  - congruence.
  - exact B.
Qed.

(** On [maze5], after the move into the wall has been rejected: a request
    back to the corridor is rejected at once. *)
Lemma request_while_out_of_bounds_witness :
  let s := run (MoveSpriteY 1 :: repeat Tick 99) maze5 in
  let h := fst (moveSprite 1 1 s) in
  let s1 := snd (moveSprite 1 1 s) in
  promises s1 !! h = Some Pending
  /\ promises (tick s1) !! h = Some (Rejected "Out of bounds")
  /\ ticker (tick s1) = []
  /\ sprite (tick s1) = sprite s
  /\ isSpriteOutOfBounds (tick s1) = true.
Proof.
  intros s.
  apply (request_while_out_of_bounds 1 1 s).
  - apply tickerMatchesPromises_run.
    split; [constructor|]. intros h. simpl. split; [discriminate | tauto].
  - vm_compute. reflexivity.
Defined.

(** * Further properties: moves that succeed *)

Lemma onPath_start (l : Listener) (p0 : Point.t) : onPath l p0 p0.
Proof. left. unfold between. lia. Qed.

Lemma onPath_shrinks (l : Listener) (p0 p1 p : Point.t) :
  advancesToward l p0 p1 -> onPath l p1 p -> onPath l p0 p.
Proof.
  unfold advancesToward, onPath, between.
  intros [(Hx & Hx1 & Hy1) | (Hx & Hy & Hx1 & Hy1)] Hp.
  - destruct (Z.ltb_spec (Point.x p0) (targetX l)); lia.
  - destruct (Z.ltb_spec (Point.y p0) (targetY l)); lia.
Qed.

(** A lone callback whose whole path passes the bounds test arrives and
    resolves its promise. *)
Lemma lone_move_clear (l : Listener) (m : nat) : forall s,
  remaining l s = m ->
  ticker s = [l] ->
  promises s !! handle l = Some Pending ->
  (forall p, onPath l (sprite s) p -> blockedAt s p = false) ->
  ticker (ticks (S m) s) = []
  /\ promises (ticks (S m) s) !! handle l = Some Resolved
  /\ sprite (ticks (S m) s) = Point.mk (targetX l) (targetY l)
  /\ (forall k, (k <= m)%nat ->
                promises (ticks k s) !! handle l = Some Pending
                /\ isSpriteOutOfBounds (ticks k s) = false).
Proof.
  induction m as [|m IH]; intros s Hm Ht Hp Hclear;
    assert (Hb : isSpriteOutOfBounds s = false)
      by (rewrite <- blockedAt_sprite; apply Hclear, onPath_start).
  - simpl. rewrite (tick_single l s Ht).
    apply remaining_zero in Hm.
    destruct (animateMotion_arrive l s Hb Hm Ht Hp) as (A & B & C).
    split; [exact A|]. split; [exact B|]. split.
    + rewrite C. apply onTarget_true. exact Hm.
    + intros k Hk. replace k with 0%nat by lia. simpl. auto.
  - assert (Hoff : onTarget l s = false).
    { apply not_true_iff_false. rewrite <- remaining_zero. lia. }
    destruct (animateMotion_advance l s Hb Hoff) as (Hadv & Hr & Ht' & Hp' & _).
    rewrite <- (tick_single l s Ht) in Hadv, Hr, Ht', Hp'.
    destruct (tick_sameSetup s) as [Hw Hg _ Hwalls _ _].
    destruct (IH (tick s)) as (A & B & C & D).
    + lia.
    + congruence.
    + congruence.
    + intros p Hon. rewrite (blockedAt_ext s) by assumption.
      eapply Hclear, onPath_shrinks; eauto.
    + change (ticks (S (S m)) s) with (ticks (S m) (tick s)).
      split; [exact A|]. split; [exact B|]. split; [exact C|].
      intros [|k] Hk; [simpl; auto|].
      apply (D k). lia.
Qed.

(** X8: for a move that is alone on the ticker, it is enough that the
    bounds test passes on the pixels of its path (along x at the current
    height up to the target column, then along y in the target column):
    with [d] the pixel distance to the target, the promise is pending and
    the sprite in bounds for [d] ticks, and after tick [d + 1] the promise
    is resolved, the ticker is empty and the sprite is on the target
    pixel.  Walls off that path do not matter. *)
Theorem lone_move_on_clear_path_resolves (l : Listener) (s : Maze) :
  ticker s = [l] ->
  promises s !! handle l = Some Pending ->
  (forall p, onPath l (sprite s) p -> blockedAt s p = false) ->
  ticker (ticks (S (remaining l s)) s) = []
  /\ promises (ticks (S (remaining l s)) s) !! handle l = Some Resolved
  /\ sprite (ticks (S (remaining l s)) s) = Point.mk (targetX l) (targetY l)
  /\ (forall k, (k <= remaining l s)%nat ->
                promises (ticks k s) !! handle l = Some Pending
                /\ isSpriteOutOfBounds (ticks k s) = false).
Proof.
  intros Ht Hp Hclear. apply lone_move_clear; auto.
Qed.

Section Corridors.
Variables W n : Z.
Hypothesis HW : 0 < W.
Hypothesis Hn : 0 < n.

Lemma cell_monotone (a b : Z) : a <= b -> a * n / W <= b * n / W.
Proof. intros Hab. apply Z.div_le_mono; [assumption | nia]. Qed.

Lemma cell_between (a b v : Z) :
  between a b v -> between (a * n / W) (b * n / W) (v * n / W).
Proof.
  unfold between. intros Hv.
  destruct (Z.le_ge_cases a b) as [Hab|Hab].
  - pose proof (cell_monotone a v ltac:(lia)).
    pose proof (cell_monotone v b ltac:(lia)). lia.
  - pose proof (cell_monotone b v ltac:(lia)).
    pose proof (cell_monotone v a ltac:(lia)). lia.
Qed.
End Corridors.

Lemma blockedAt_cells (s : Maze) (p : Point.t) :
  constructed s ->
  blockedAt s p
  = isWallCell (grid s)
      (Point.y p * gridLength (grid s) / view_width s)
      (Point.x p * gridLength (grid s) / view_width s)
    || ((Point.x p * gridLength (grid s) / view_width s <? 0)
        || (Point.y p * gridLength (grid s) / view_width s <? 0)
        || (Point.x p * gridLength (grid s) / view_width s
            >=? gridLength (grid s))
        || (Point.y p * gridLength (grid s) / view_width s
            >=? gridLength (grid s))).
Proof.
  intros Hs. unfold blockedAt.
  assert (Hs' : constructed (set_sprite p s)) by exact Hs.
  rewrite isSpriteOutOfBounds_cells, spriteCellX_div, spriteCellY_div
    by exact Hs'.
  reflexivity.
Qed.

Lemma openCell_not_blocked (s : Maze) (p : Point.t) :
  constructed s ->
  openCell s (Point.x p * gridLength (grid s) / view_width s)
             (Point.y p * gridLength (grid s) / view_width s) ->
  blockedAt s p = false.
Proof.
  intros Hs (Hw & Hc & Hr). rewrite blockedAt_cells, Hw by exact Hs. simpl.
  rewrite !orb_false_iff, !Z.ltb_ge.
  repeat split; try lia;
    apply not_true_iff_false; rewrite Z.geb_le; lia.
Qed.

(** X9: on a canvas of screen size whose [cellSize] is a whole number of
    pixels, at least three (so that every product and quotient maze.js
    makes is exact), with the sprite anywhere in cell [(c0, r0)] and no
    move in flight, a request for cell [(c1, r1)] succeeds as soon as the
    cells of row [r0] from column [c0] to [c1] and the cells of column [c1]
    from row [r0] to [r1] are inside the grid and not walls: the promise is pending until the sprite arrives, is resolved
    one tick later, and the sprite then stands on the target pixel, which
    lies in cell [(c1, r1)], the cell [spriteCoordinates] names. *)
Theorem move_through_open_cells_resolves (s : Maze) (c0 r0 c1 r1 : Z) :
  constructed s ->
  wholeCells s ->
  view_width s < pixelLimit ->
  5 * gridLength (grid s) < 2 * view_width s ->
  ticker s = [] ->
  inCell s c0 r0 ->
  (forall c, between c0 c1 c -> openCell s c r0) ->
  (forall r, between r0 r1 r -> openCell s c1 r) ->
  let h := fst (moveSprite c1 r1 s) in
  let s1 := snd (moveSprite c1 r1 s) in
  let d := remaining (mkListener h (targetOf s c1) (targetOf s r1)) s1 in
  (forall k, (k <= d)%nat -> promises (ticks k s1) !! h = Some Pending)
  /\ promises (ticks (S d) s1) !! h = Some Resolved
  /\ ticker (ticks (S d) s1) = []
  /\ sprite (ticks (S d) s1) = Point.mk (targetOf s c1) (targetOf s r1)
  /\ inCell (ticks (S d) s1) c1 r1
  /\ spriteCoordinates (ticks (S d) s1) = Point.mk c1 r1.
Proof.
  intros Hs _ _ Hroom Hidle Hin Hrow Hcol. cbv zeta.
  destruct (moveSprite_registers c1 r1 s) as (Ht & Hp & Hh & Hsp & Hc).
  destruct (moveSprite_sameGrid c1 r1 s) as (Hw & Hg & Hwalls).
  rewrite Hidle in Ht. simpl in Ht. rewrite Hh.
  set (s1 := snd (moveSprite c1 r1 s)) in *.
  set (l := mkListener (length (promises s)) (targetOf s c1) (targetOf s r1))
    in *.
  assert (Hs1 : constructed s1).
  { destruct Hs as (A & B & C). unfold constructed.
    rewrite Hw, Hg, Hwalls. auto. }
  pose proof Hs as (HW & Hne & _). apply gridLength_positive in Hne.
  apply (inCell_floor s c0 r0 Hs) in Hin as [Hc0 Hr0].
  rewrite spriteCellX_div in Hc0 by exact Hs.
  rewrite spriteCellY_div in Hr0 by exact Hs.
  assert (Htx : targetOf s c1 * gridLength (grid s) / view_width s = c1)
    by (rewrite targetOf_div by exact Hs; apply target_in_cell; assumption).
  assert (Hty : targetOf s r1 * gridLength (grid s) / view_width s = r1)
    by (rewrite targetOf_div by exact Hs; apply target_in_cell; assumption).
  destruct (lone_move_clear l (remaining l s1) s1 eq_refl Ht)
    as (A & B & C & D).
  - rewrite Hp. apply list_lookup_middle. reflexivity.
  - intros p Hon. rewrite (blockedAt_ext s s1) by assumption.
    apply openCell_not_blocked; [exact Hs|].
    rewrite Hsp in Hon. destruct Hon as [[Hy Hx] | [Hx Hy]].
    + rewrite Hy, <- Hr0. apply Hrow. rewrite Hc0, <- Htx.
      apply cell_between; assumption.
    + rewrite Hx. simpl. rewrite Htx. apply Hcol. rewrite Hr0, <- Hty.
      apply cell_between; assumption.
  - split; [intros k Hk; apply (D k Hk)|].
    split; [exact B|]. split; [exact A|]. split; [exact C|]. split.
    + assert (Hsd : constructed (ticks (S (remaining l s1)) s1)).
      { eapply constructed_sameSetup; [apply ticks_sameSetup | exact Hs1]. }
      apply inCell_floor; [exact Hsd|].
      rewrite spriteCellX_div, spriteCellY_div by exact Hsd.
      destruct (ticks_sameSetup (S (remaining l s1)) s1) as [-> -> _ _ _ _].
      rewrite C, Hw, Hg. simpl. auto.
    + rewrite ticks_spriteCoordinates. exact Hc.
Qed.

(** On [maze5]: from the entrance straight to cell (3, 3) of the exit
    region, along row 1 and then down column 3. *)
Lemma move_through_open_cells_resolves_witness :
  let h := fst (moveSprite 3 3 maze5) in
  let s1 := snd (moveSprite 3 3 maze5) in
  let d := remaining (mkListener h (targetOf maze5 3) (targetOf maze5 3)) s1 in
  (forall k, (k <= d)%nat -> promises (ticks k s1) !! h = Some Pending)
  /\ promises (ticks (S d) s1) !! h = Some Resolved
  /\ ticker (ticks (S d) s1) = []
  /\ sprite (ticks (S d) s1)
     = Point.mk (targetOf maze5 3) (targetOf maze5 3)
  /\ inCell (ticks (S d) s1) 3 3
  /\ spriteCoordinates (ticks (S d) s1) = Point.mk 3 3.
Proof.
  apply (move_through_open_cells_resolves maze5 0 1 3 3).
  - exact constructed_maze5.
  - reflexivity.
  - reflexivity.
  - reflexivity.
  - reflexivity.
  - vm_compute. repeat split; discriminate.
  - intros c Hc. unfold between in Hc.
    assert (Hcases : c = 0 \/ c = 1 \/ c = 2 \/ c = 3) by lia.
    destruct Hcases as [-> | [-> | [-> | ->]]]; vm_compute;
      repeat split; discriminate.
  - intros r Hr. unfold between in Hr.
    assert (Hcases : r = 1 \/ r = 2 \/ r = 3) by lia.
    destruct Hcases as [-> | [-> | ->]]; vm_compute;
      repeat split; discriminate.
Defined.

(** On [maze5]: the move from the entrance to cell (3, 1); its path is the
    row of pixels at height 103 from x = 3 to x = 302 and one pixel up. *)
Lemma lone_move_on_clear_path_resolves_witness :
  let l := mkListener 0 302 102 in
  let s := snd (moveSprite 3 1 maze5) in
  ticker (ticks (S (remaining l s)) s) = []
  /\ promises (ticks (S (remaining l s)) s) !! handle l = Some Resolved
  /\ sprite (ticks (S (remaining l s)) s) = Point.mk (targetX l) (targetY l)
  /\ (forall k, (k <= remaining l s)%nat ->
                promises (ticks k s) !! handle l = Some Pending
                /\ isSpriteOutOfBounds (ticks k s) = false).
Proof.
  intros l s. apply (lone_move_on_clear_path_resolves l s).
  - reflexivity.
  - reflexivity.
  - intros [px py] Hon. apply openCell_not_blocked.
    + exact constructed_maze5.
    + change (gridLength (grid s)) with 5. change (view_width s) with 500.
      simpl Point.x. simpl Point.y.
      pose proof (Z.mul_div_le (px * 5) 500 ltac:(lia)).
      pose proof (Z.mul_succ_div_gt (px * 5) 500 ltac:(lia)).
      pose proof (Z.mul_div_le (py * 5) 500 ltac:(lia)).
      pose proof (Z.mul_succ_div_gt (py * 5) 500 ltac:(lia)).
      assert (Hcells : py * 5 / 500 = 1
                       /\ (px * 5 / 500 = 0 \/ px * 5 / 500 = 1
                           \/ px * 5 / 500 = 2 \/ px * 5 / 500 = 3)).
      { unfold onPath, between in Hon.
        change (sprite s) with (Point.mk 3 103) in Hon.
        change (targetX l) with 302 in Hon.
        change (targetY l) with 102 in Hon.
        cbn [Point.x Point.y] in Hon. lia. }
      destruct Hcells as [-> [-> | [-> | [-> | ->]]]]; vm_compute;
        repeat split; discriminate.
Defined.

(** * Further properties: the success handler and the sprite's speed *)



Lemma animateMotion_small_step (l : Listener) (s : Maze) :
  pixelDistance (sprite (animateMotion l s)) (sprite s) <= 1
  /\ (length (ticker (animateMotion l s)) <= length (ticker s))%nat.
Proof.
  split.
  - unfold pixelDistance.
    destruct (isSpriteOutOfBounds s) eqn:Hb.
    + destruct (blocked_callback_frame l s Hb) as (-> & _). lia.
    + destruct (onTarget l s) eqn:Hon.
      * unfold animateMotion. rewrite Hb.
        unfold onTarget in Hon. apply andb_true_iff in Hon as [-> ->].
        simpl.
        match goal with
        | |- context [sprite (settle ?h ?v ?s2)] =>
            destruct (settle_frame h v s2) as (_ & -> & _)
        end.
        unfold callOnSuccess, ticker_remove.
        destruct (isSpriteAtFinish _); [destruct (onSuccess _)|]; simpl; lia.
      * destruct (animateMotion_advance l s Hb Hon) as (Hadv & _).
        destruct Hadv as [(_ & -> & ->) | (_ & _ & -> & ->)].
        -- destruct (Point.x (sprite s) <? targetX l); lia.
        -- destruct (Point.y (sprite s) <? targetY l); lia.
  - destruct (animateMotion_ticker_promises l s) as [[-> _]|(v & _ & -> & _)].
    + lia.
    + apply length_filter.
Qed.

Lemma fold_small_steps (ls : list Listener) : forall s,
  pixelDistance (sprite (fold_left (fun st l => animateMotion l st) ls s))
                (sprite s) <= Z.of_nat (length ls)
  /\ (length (ticker (fold_left (fun st l => animateMotion l st) ls s))
      <= length (ticker s))%nat.
Proof.
  induction ls as [|l ls IH]; intros s; simpl length; simpl fold_left.
  - unfold pixelDistance. lia.
  - destruct (animateMotion_small_step l s) as [H1 H2].
    destruct (IH (animateMotion l s)) as [H3 H4].
    unfold pixelDistance in *. lia.
Qed.

(** X11: the sprite never jumps.  In one tick every callback on the ticker
    moves it by at most one pixel, and ticks never add a callback, so after
    [k] ticks the sprite is at most [k] times the number of callbacks away
    (along x plus along y) from where it was: at most one pixel per tick
    for a move alone on the ticker, and not at all with an empty ticker. *)
Theorem sprite_speed_bound (k : nat) (s : Maze) :
  pixelDistance (sprite (ticks k s)) (sprite s)
  <= Z.of_nat k * Z.of_nat (length (ticker s))
  /\ (length (ticker (ticks k s)) <= length (ticker s))%nat.
Proof.
  revert s. induction k as [|k IH]; intros s.
  - simpl. unfold pixelDistance. lia.
  - change (ticks (S k) s) with (ticks k (tick s)).
    destruct (fold_small_steps (ticker s) s) as [H1 H2].
    fold (tick s) in H1, H2.
    destruct (IH (tick s)) as [H3 H4].
    split; [|lia]. unfold pixelDistance in *. nia.
Qed.

(** * Further properties: getting out of a wall *)

Lemma whole_cellSize_round (W n : Z) :
  0 < W -> 0 < n -> W mod n = 0 -> (2 * W + n) / (2 * n) * n = W.
Proof.
  intros HW Hn Hdiv. apply Z.mod_divide in Hdiv as [q Hq]; [|lia].
  assert (Hq' : (2 * W + n) / (2 * n) = q).
  { symmetry. apply (Z.div_unique _ _ _ n); lia. }
  rewrite Hq'. lia.
Qed.

(** X12: when [cellSize] is a whole number of pixels and the entrance cell
    (0, 1) is inside the grid and not a wall, [resetSprite] leaves the
    sprite in the entrance cell with the bounds test passing, wherever the
    sprite was before; in particular it frees a sprite that a rejected move
    left out of bounds. *)
Theorem resetSprite_recovers (s : Maze) :
  constructed s ->
  view_width s mod gridLength (grid s) = 0 ->
  openCell s 0 1 ->
  isSpriteOutOfBounds (resetSprite s) = false
  /\ inCell (resetSprite s) 0 1
  /\ spriteCoordinates (resetSprite s) = Point.mk 0 1.
Proof.
  intros Hs Hdiv Hopen.
  assert (Hs' : constructed (resetSprite s)) by exact Hs.
  pose proof Hs as (HW & Hg & _). apply gridLength_positive in Hg.
  assert (Hcells : Point.x (sprite (resetSprite s)) * gridLength (grid s)
                   / view_width s = 0
                   /\ Point.y (sprite (resetSprite s)) * gridLength (grid s)
                      / view_width s = 1).
  { destruct (resetSprite_restores_pixels s) as [-> ->].
    unfold cellSize, cellSizeOf. rewrite round_cellSize by assumption.
    rewrite whole_cellSize_round by assumption.
    split; [reflexivity | apply Z.div_same; lia]. }
  destruct Hcells as [Hx Hy].
  split; [|split; [|reflexivity]].
  - rewrite <- (blockedAt_sprite (resetSprite s)).
    rewrite (blockedAt_ext s (resetSprite s)) by reflexivity.
    apply openCell_not_blocked; [exact Hs|]. rewrite Hx, Hy. exact Hopen.
  - apply inCell_floor; [exact Hs'|].
    rewrite spriteCellX_div, spriteCellY_div by exact Hs'.
    change (view_width (resetSprite s)) with (view_width s).
    change (grid (resetSprite s)) with (grid s).
    rewrite Hx, Hy. auto.
Qed.

(** On [maze5], after the move into the wall below the entrance has been
    rejected and the sprite is stuck at the wall's edge. *)
Lemma resetSprite_recovers_witness :
  let s := run (MoveSpriteY 1 :: repeat Tick 99) maze5 in
  isSpriteOutOfBounds s = true
  /\ isSpriteOutOfBounds (resetSprite s) = false
  /\ inCell (resetSprite s) 0 1
  /\ spriteCoordinates (resetSprite s) = Point.mk 0 1.
Proof.
  intros s. split; [vm_compute; reflexivity|].
  apply (resetSprite_recovers s).
  - apply constructed_run, constructed_maze5.
  - vm_compute. reflexivity.
  - vm_compute. repeat split; discriminate.
Defined.

(** * The two readings side by side *)

(** On a canvas 495 pixels wide with 14 rows, column 7 starts at 247.5
    exactly; the binary64 product [7 * cellSize] is 247.49999999999997, so
    [moveSprite(7, _)] aims at pixel 249 where the exact reading gives
    250. *)
Example target_of_rounded_half :
  Double.targetOf halfMaze 7 = 249%float /\ targetOf halfMaze 7 = 250.
Proof. split; vm_compute; reflexivity. Qed.

(** On [maze5] every target pixel is the same in both readings, also for
    the cells just off the grid. *)
Example maze5_targets_agree :
  forallb (fun c => PrimFloat.eqb (Double.targetOf maze5 c)
                                  (Double.ofZ (targetOf maze5 c)))
          [-1; 0; 1; 2; 3; 4; 5] = true.
Proof. vm_compute. reflexivity. Qed.

(** On [maze5] the binary64 bounds test answers as the exact one in every
    state of the worked runs: the move into the wall, the two moves made
    back to back, the three moves to the exit region, the move that is reset
    on its way, and the move from the entrance straight to cell (3, 3). *)
Example maze5_runs_agree :
  readingsAgree 100 intoWall5 = true
  /\ readingsAgree 60 twoMoves5 = true
  /\ readingsAgree 301 (snd (moveSprite 3 1 maze5)) = true
  /\ readingsAgree 201
       (snd (moveSprite 3 3 (ticks 301 (snd (moveSprite 3 1 maze5))))) = true
  /\ readingsAgree 101 (snd (moveSprite 3 4 firstWin5)) = true
  /\ readingsAgree 305 resetMidMove5 = true
  /\ readingsAgree 501 (snd (moveSprite 3 3 maze5)) = true.
Proof. vm_compute. repeat split. Qed.
